(** * Threshold calibration of the anomaly detectors

    A shallow embedding of [base_ano_det.py], [anotwin/train.py] and
    [dadgt/dadgt_utils.py], with the properties their specification
    states about them.

    Scores, rates and thresholds are finite IEEE doubles in the source.
    They are modelled by the rationals they denote: a comparison of two
    finite doubles is the comparison of these rationals, and arithmetic
    is read without rounding.  NaN and the infinities are outside the
    model. *)

From Stdlib Require Import QArith Qabs Lia Lqa.
From stdpp Require Import functions gmap strings list.

Local Open Scope Q_scope.

(** ** Python results *)

(** The exceptions the modelled code raises. *)
Inductive exn : Type :=
| AssertionError
| IndexError
| ValueError
| TypeError
| NotImplementedError.

Inductive result (A : Type) : Type :=
| Ok (a : A)
| Raise (e : exn).

Arguments Ok {A} a.
Arguments Raise {A} e.

#[global] Instance result_ret : MRet result := fun A a => Ok a.

#[global] Instance result_bind : MBind result := fun A B k r =>
  match r with
  | Ok a => k a
  | Raise e => Raise e
  end.

Definition raises {A : Type} (r : result A) : Prop := exists e, r = Raise e.

(** ** base_ano_det.py *)

Module BaseAnoDet.

(** [for th, rate in zip(ths, rates): if test(rate): return th]; [None]
    when the loop runs to its end. [zip] stops at the shorter sequence. *)
Fixpoint first_pair (test : Q -> bool) (ths rates : list Q) : option Q :=
  match ths, rates with
  | th :: ths', rate :: rates' =>
      if test rate then Some th else first_pair test ths' rates'
  | _, _ => None
  end.

(** [binary_clf_thresh_by_tpr]: the threshold, or Python's [None] when the
    loop ends and the assertion on [tpr[-1]] passes. *)
Definition binary_clf_thresh_by_tpr (thresholds tpr : list Q) (min_tpr : Q)
  : result (option Q) :=
  match first_pair (Qle_bool min_tpr) thresholds tpr with
  | Some th => Ok (Some th)
  | None =>
      match last tpr with
      | None => Raise IndexError
      | Some r => if Qeq_bool r 1 then Ok None else Raise AssertionError
      end
  end.

(** [binary_clf_thresh_by_fpr]: [fpr[1:]] is the tail of [fpr]. *)
Definition binary_clf_thresh_by_fpr (thresholds fpr : list Q) (max_fpr : Q)
  : result Q :=
  match first_pair (Qle_bool max_fpr) thresholds (tail fpr) with
  | Some th => Ok th
  | None =>
      match last thresholds with
      | None => Raise IndexError
      | Some th => Ok th
      end
  end.

(** [np.finfo(float).eps]: the gap between 1.0 and the next double,
    2^-52. *)
Definition np_finfo_float_eps : Q := 1 # (2 ^ 52).

(** [np.max([a, b])]. *)
Definition np_max_pair (a b : Q) : Q := if Qle_bool a b then b else a.

(** [self.params]: a bag of named numeric settings, tested with
    ['key' in self.params]. *)
Abbreviation params := (gmap string Q).

Section Calibration.

(** [np.mean] and [np.std] (its default [ddof=0], the population
    standard deviation) are numpy's. *)
Variables np_mean np_std : list Q -> Q.

(** [calc_thresholds]. [np.array([a, b, None]) / norm_factor] raises
    [TypeError]; the prints under [show_thresh] only write to the
    console. *)
Definition calc_thresholds (p : params) (fpr tpr thresholds scores : list Q)
    (show_thresh : bool) : result (list Q * Q) :=
  match p !! "max_fpr" with
  | None => Raise AssertionError
  | Some max_fpr =>
  match p !! "min_tpr" with
  | None => Raise AssertionError
  | Some min_tpr =>
  match p !! "sigma_k" with
  | None => Raise AssertionError
  | Some sigma_k =>
      let mean_score := np_mean scores in
      let sigma_score := np_std scores in
      let norm_factor := np_max_pair mean_score np_finfo_float_eps in
      th_fpr ← binary_clf_thresh_by_fpr thresholds fpr max_fpr;
      th_tpr ← binary_clf_thresh_by_tpr thresholds tpr min_tpr;
      match th_tpr with
      | None => Raise TypeError
      | Some th_tpr =>
          Ok ([(mean_score + sigma_k * sigma_score) / norm_factor;
               th_fpr / norm_factor;
               th_tpr / norm_factor], norm_factor)
      end
  end end end.

(** [normalize_score]. [scores] is a numpy array: the division is
    elementwise, and raises nothing. *)
Definition normalize_score (p : params) (scores : list Q) : result (list Q) :=
  match p !! "distance_norm_factor" with
  | None => Raise ValueError
  | Some distance_norm_factor =>
      Ok ((fun s => s / distance_norm_factor) <$> scores)
  end.

(** [evaluate_test]. [predict] is the subclass's, called with
    [return_raw=True]; [roc_curve], [auc] and [roc_auc_score] are
    scikit-learn's, and may raise. *)
Context {Samples Labels Raw : Type}.
Variable predict : Samples -> option Labels -> result (list Q * Raw).
Variable roc_curve : list bool -> list Q -> result (list Q * list Q * list Q).
Variable auc : list Q -> list Q -> result Q.
Variable roc_auc_score : list bool -> list Q -> Q -> result Q.

Definition evaluate_test (p : params) (test_samples : Samples)
    (test_y_trues : list bool) (test_labels : option Labels)
    (show_thresh : bool)
  : result (Q * option Q * list Q * Q * list Q * Raw) :=
  '(scores, raw_scores) ← predict test_samples test_labels;
  '(fpr, tpr, thresholds) ← roc_curve test_y_trues scores;
  auc_ ← auc fpr tpr;
  pauc ← match p !! "max_fpr" with
         | Some max_fpr =>
             v ← roc_auc_score test_y_trues scores max_fpr; Ok (Some v)
         | None => Ok None
         end;
  '(norm_threshs, norm_factor) ←
      calc_thresholds p fpr tpr thresholds scores show_thresh;
  Ok (auc_, pauc, norm_threshs, norm_factor, scores, raw_scores).

End Calibration.

End BaseAnoDet.

(** ** anotwin/train.py *)

Module Train.

(** Tensors live in storage blocks.  [Module.state_dict()] of torch is a
    shallow copy: the tensors it holds share the storage of the module's
    parameters.  [optimizer.step()] updates the parameters in place and
    [load_state_dict] copies into them in place.  [train_model] allocates
    no tensor ([copy] is imported and never called), so a state dict is
    the block of the module it came from. *)
Abbreviation loc := nat.

(** The heap: the contents [W] of every block. *)
Abbreviation heap W := (loc -> W).

Record detector : Type := { model : loc; metric_fc : loc }.

Record wts : Type := { wts_model : loc; wts_metric_fc : loc }.

Definition state_dict (module : loc) : loc := module.

Definition _get_model_wts (det : detector) : wts :=
  {| wts_model := state_dict (model det);
     wts_metric_fc := state_dict (metric_fc det) |}.

Definition Qltb (a b : Q) : bool := negb (Qle_bool b a).

Section TrainModel.

(** [W]: the contents of a module's parameters. [Trainer]: the optimizer,
    the scheduler and the data loaders. *)
Context {W Trainer : Type}.

Definition load_state_dict (module : loc) (sd : loc) (h : heap W) : heap W :=
  <[module := h sd]> h.

Definition _set_model_wts (det : detector) (w : wts) (h : heap W) : heap W :=
  load_state_dict (metric_fc det) (wts_metric_fc w)
    (load_state_dict (model det) (wts_model w) h).

(** What a state dict holds when it is read. *)
Definition contents (h : heap W) (w : wts) : W * W :=
  (h (wts_model w), h (wts_metric_fc w)).

(** The train phase of an epoch steps the optimizer over the batches;
    the val phase leaves the parameters alone and yields [epoch_loss] and
    [epoch_acc]. *)
Variable train_phase : nat -> Trainer -> W * W -> Trainer * (W * W).
Variable val_phase : nat -> Trainer -> W * W -> Q * Q.

Record loop_state : Type := {
  trainer : Trainer;
  live : heap W;
  best_acc : Q;
  best_loss : Q;
  best_model_wts : wts
}.

(** The two phases of an epoch, on the detector's parameters. *)
Definition run_train_phase (det : detector) (epoch : nat) (tr : Trainer)
    (h : heap W) : Trainer * heap W :=
  let '(tr', (w_model, w_fc)) :=
    train_phase epoch tr (h (model det), h (metric_fc det)) in
  (tr', <[metric_fc det := w_fc]> (<[model det := w_model]> h)).

Definition run_val_phase (det : detector) (epoch : nat) (tr : Trainer)
    (h : heap W) : Q * Q :=
  val_phase epoch tr (h (model det), h (metric_fc det)).

Definition epoch_body (det : detector) (st : loop_state) (epoch : nat)
  : loop_state :=
  let '(tr, h) := run_train_phase det epoch (trainer st) (live st) in
  let '(epoch_loss, epoch_acc) := run_val_phase det epoch tr h in
  if Qltb epoch_loss (best_loss st) then
    {| trainer := tr; live := h; best_acc := epoch_acc;
       best_loss := epoch_loss; best_model_wts := _get_model_wts det |}
  else
    {| trainer := tr; live := h; best_acc := best_acc st;
       best_loss := best_loss st; best_model_wts := best_model_wts st |}.

(** The run seen without the bookkeeping of the best: the trainer and
    the heap after the given epochs, and the [(epoch_loss, epoch_acc)]
    of their val phases. *)
Fixpoint training (det : detector) (epochs : list nat) (tr : Trainer)
    (h : heap W) : Trainer * heap W :=
  match epochs with
  | [] => (tr, h)
  | epoch :: epochs' =>
      let '(tr', h') := run_train_phase det epoch tr h in
      training det epochs' tr' h'
  end.

Fixpoint val_history (det : detector) (epochs : list nat) (tr : Trainer)
    (h : heap W) : list (Q * Q) :=
  match epochs with
  | [] => []
  | epoch :: epochs' =>
      let '(tr', h') := run_train_phase det epoch tr h in
      run_val_phase det epoch tr' h' :: val_history det epochs' tr' h'
  end.

(** The parameters the val phase of [epoch] ran on. *)
Definition validated_weights (det : detector) (epoch : nat) (tr0 : Trainer)
    (h0 : heap W) : W * W :=
  let h := (training det (seq 0 (S epoch)) tr0 h0).2 in
  (h (model det), h (metric_fc det)).

Record train_result : Type := {
  r_best_acc : Q;
  r_best_loss : Q;
  last_weights : wts;
  best_weights : wts
}.

(** [train_model]: the returned dict, and the heap it leaves. *)
Definition train_model (det : detector) (num_epochs : nat) (tr0 : Trainer)
    (h0 : heap W) : train_result * heap W :=
  let st0 := {| trainer := tr0; live := h0; best_acc := 0;
                best_loss := 1e10; best_model_wts := _get_model_wts det |} in
  let st := fold_left (epoch_body det) (seq 0 num_epochs) st0 in
  let last_wts := _get_model_wts det in
  let h := _set_model_wts det (best_model_wts st) (live st) in
  ({| r_best_acc := best_acc st; r_best_loss := best_loss st;
      last_weights := last_wts; best_weights := best_model_wts st |}, h).

End TrainModel.

End Train.

(** ** dadgt/dadgt_utils.py *)

Module Dadgt.

(** [s.replace(old, new)] of Python for a non-empty [old]: the
    occurrences of [old] are found from left to right, without overlap,
    and each is replaced. [skip] counts the characters of a found
    occurrence still to be dropped. *)
Fixpoint str_replace_from (old new : string) (skip : nat) (s : string)
  : string :=
  match s with
  | EmptyString => EmptyString
  | String c s' =>
      match skip with
      | S n => str_replace_from old new n s'
      | O =>
          if String.prefix old s
          then new +:+ str_replace_from old new (String.length old - 1) s'
          else String c (str_replace_from old new 0 s')
      end
  end.

Definition str_replace (old new s : string) : string :=
  str_replace_from old new 0 s.

(** [new_k] of [remove_model]; [k[:n]] is the slice of the first [n]
    characters, the whole of [k] when it is shorter. *)
Definition new_key (k : string) : string :=
  if String.eqb "model." (String.substring 0 (String.length "model.") k)
  then str_replace "model." "" k
  else k.

Section StateDict.

(** A Python dict of tensors [V]: the keys in insertion order, no key
    twice. *)
Context {V : Type}.

Fixpoint dict_get (k : string) (d : list (string * V)) : option V :=
  match d with
  | [] => None
  | (k', v) :: d' => if String.eqb k k' then Some v else dict_get k d'
  end.

(** [d[k] = v]: a key already there keeps its place. *)
Fixpoint dict_set (k : string) (v : V) (d : list (string * V))
  : list (string * V) :=
  match d with
  | [] => [(k, v)]
  | (k', v') :: d' =>
      if String.eqb k k' then (k, v) :: d' else (k', v') :: dict_set k v d'
  end.

Definition remove_model (state_dict : list (string * V)) : list (string * V) :=
  fold_left
    (fun replaced k =>
       match dict_get k state_dict with
       | Some v => dict_set (new_key k) v replaced
       | None => replaced
       end)
    (state_dict.*1) [].

End StateDict.

(** What [predict] returns: the scores alone, or the pair
    [(scores, raw_scores)]. *)
Inductive predicted : Type :=
| Scores (scores : list Q)
| ScoresRaw (scores raw_scores : list Q).

Section Predict.

Context {Samples Labels : Type}.

(** [GeoTfmEval.simplified_normality] runs the network over the samples
    and gives one normality per sample. *)
Variable simplified_normality : Samples -> result (list Q).

(** [DADGT.predict]; [1. - np.array(ns)] is elementwise. *)
Definition predict (test_samples : Samples) (test_labels : option Labels)
    (return_raw : bool) : result predicted :=
  ns ← simplified_normality test_samples;
  let abnormalities := (fun n => 1 - n) <$> ns in
  if return_raw then Ok (ScoresRaw abnormalities abnormalities)
  else Ok (Scores abnormalities).

End Predict.

End Dadgt.

(** ** base_ano_det.py: the detector's life cycle *)

Module Lifecycle.

(** The experiment fields of a [BaseAnoDet]; [None] is Python's. *)
Record experiment (Target : Type) : Type := {
  experiment_no : option Z;
  test_target : option Target
}.

Arguments experiment_no {Target} _.
Arguments test_target {Target} _.


Definition prepare_experiment {Target : Type} (self : experiment Target)
    (no : option Z) (target : option Target) : experiment Target :=
  {| experiment_no :=
       match no with
       | None =>
           match experiment_no self with
           | None => Some 0%Z
           | Some n => Some (n + 1)%Z
           end
       | Some n => Some n
       end;
     test_target := target |}.

(** [BaseAnoDet.predict], which a subclass is to override. *)
Definition predict {Samples Labels Raw : Type} (test_samples : Samples)
    (test_labels : option Labels) : result (list Q * Raw) :=
  Raise NotImplementedError.

End Lifecycle.

(** ** anotwin/train.py: the loss of a step *)

Module TrainLoss.

(** [torch_flooding]: [(loss - b).abs() + b]. *)
Definition torch_flooding (loss b : Q) : Q := Qabs (loss - b) + b.

Inductive phase : Type := train | val.

Definition is_train (ph : phase) : bool :=
  match ph with train => true | val => false end.

(** The loss a step of [train_model] goes on with:
    [if flooding_b > 0.0 and phase == 'train': loss = torch_flooding(...)]. *)
Definition flooded (flooding_b : Q) (ph : phase) (loss : Q) : Q :=
  if Train.Qltb 0 flooding_b && is_train ph
  then torch_flooding loss flooding_b
  else loss.

End TrainLoss.

(** ** dadgt/dadgt_utils.py: the transformation datasets *)

Module GeoTfm.

(** The constants of [PIL.Image] the datasets use. *)
Inductive transpose : Type :=
| FLIP_LEFT_RIGHT
| ROTATE_90
| ROTATE_180
| ROTATE_270.

(** A flip, a rotation and a translation, each optional. *)
Definition geo_tfm : Type := option transpose * option transpose * option (Q * Q).

(** [itertools.product] of three lists: the last varies fastest. *)
Definition product {A B C : Type} (xs : list A) (ys : list B) (zs : list C)
  : list (A * B * C) :=
  x ← xs; y ← ys; z ← zs; [(x, y, z)].

Definition GeoTfmDataset : list geo_tfm :=
  product [None; Some FLIP_LEFT_RIGHT]
    [None; Some ROTATE_90; Some ROTATE_180; Some ROTATE_270]
    [None; Some (0.1, 0); Some (-0.1, 0); Some (0, 0.1); Some (0, -0.1)].

Definition GeoTfm4Dataset : list geo_tfm :=
  product [None]
    [None; Some ROTATE_90; Some ROTATE_180; Some ROTATE_270]
    [None].

Definition GeoTfm20Dataset : list geo_tfm :=
  product [None]
    [None; Some ROTATE_90; Some ROTATE_180; Some ROTATE_270]
    [None; Some (0.1, 0); Some (-0.1, 0); Some (0, 0.1); Some (0, -0.1)].

(** What an indexing yields. *)
Inductive outcome (A : Type) : Type :=
| Got (a : A)
| RaiseIndexError
| RaiseZeroDivisionError.

Arguments Got {A} a.
Arguments RaiseIndexError {A}.
Arguments RaiseZeroDivisionError {A}.

(** [l[i]] of Python: a negative index counts from the end. *)
Definition py_getitem {A : Type} (l : list A) (i : Z) : outcome A :=
  let n := Z.of_nat (length l) in
  let j := if (i <? 0)%Z then (i + n)%Z else i in
  if (0 <=? j)%Z && (j <? n)%Z then
    match l !! Z.to_nat j with
    | Some x => Got x
    | None => RaiseIndexError
    end
  else RaiseIndexError.

Section Dataset.

(** [geo_tfms] is the class's, [file_list] the instance's. *)
Context {File : Type}.
Variables (geo_tfms : list geo_tfm) (file_list : list File).

Definition n_tfm : Z := Z.of_nat (length geo_tfms).

Definition classes : list Z := seqZ 0 n_tfm.

Definition __len__ : Z := (Z.of_nat (length file_list) * n_tfm)%Z.

(** [//] and [%] of Python round to the floor, as [Z.div] and [Z.modulo]
    do; they raise on a zero divisor. *)
Definition filename (index : Z) : outcome File :=
  if (n_tfm =? 0)%Z then RaiseZeroDivisionError
  else py_getitem file_list (index / n_tfm).

(** [__getitem__]: the path and the transformation the image is made
    from by PIL, and the label [rot]. *)
Definition __getitem__ (index : Z) : outcome (File * geo_tfm * Z) :=
  match filename index with
  | Got img_path =>
      let rot := (index mod n_tfm)%Z in
      match py_getitem geo_tfms rot with
      | Got tfm => Got (img_path, tfm, rot)
      | RaiseIndexError => RaiseIndexError
      | RaiseZeroDivisionError => RaiseZeroDivisionError
      end
  | RaiseIndexError => RaiseIndexError
  | RaiseZeroDivisionError => RaiseZeroDivisionError
  end.

End Dataset.

End GeoTfm.

(** ** dadgt/dadgt_utils.py: the training scheme and the checkpoints *)

Module Scheme.

(** [TrainingScheme.__init__]:
    [train_files = [f for f in files if f not in self.val_files]], for
    the [val_files] that [random.sample] drew. *)
Definition train_files (files val_files : list string) : list string :=
  filter (fun f => f ∉ val_files) files.

Section Checkpoint.

Context {Path V : Type}.

(** [max(xs, key=key)] of Python: the first of the greatest, [ValueError]
    on an empty sequence. *)
Fixpoint max_from (key : Path -> Q) (best : Path) (xs : list Path) : Path :=
  match xs with
  | [] => best
  | x :: xs' => max_from key (if Train.Qltb (key best) (key x) then x else best) xs'
  end.

Definition py_max (key : Path -> Q) (xs : list Path) : result Path :=
  match xs with
  | [] => Raise ValueError
  | x :: xs' => Ok (max_from key x xs')
  end.

(** [load_saved_checkpoint]: [matches] is what the glob yields,
    [getctime] is [os.path.getctime] and [load_state path] is
    [torch.load(path)['state_dict']]. The result is the path it picks and
    the weights it hands to [self.model.load_state_dict]. *)
Definition load_saved_checkpoint (matches : list Path) (getctime : Path -> Q)
    (load_state : Path -> result (list (string * V)))
  : result (Path * list (string * V)) :=
  path ← py_max getctime matches;
  state ← load_state path;
  Ok (path, Dadgt.remove_model state).

End Checkpoint.

End Scheme.

(** Python's [old in s] on strings. *)
Fixpoint occurs_in (old s : string) : bool :=
  String.prefix old s ||
  match s with
  | EmptyString => false
  | String _ s' => occurs_in old s'
  end.

(** ** The ROC curve of the specification *)

(** [thresholds] strictly decreasing and the rates non-decreasing, as
    [roc_curve] yields them. *)
Definition strictly_decreasing (l : list Q) : Prop :=
  forall i j a b, (i < j)%nat -> l !! i = Some a -> l !! j = Some b -> b < a.

Definition non_decreasing (l : list Q) : Prop :=
  forall i j a b, (i <= j)%nat -> l !! i = Some a -> l !! j = Some b -> a <= b.

(** The smallest positive double, the subnormal 2^-1074. *)
Definition smallest_positive_double : Q := 1 # (2 ^ 1074).

(** ** Concrete runs *)

(** The curve of the specification's scenarios. *)
Definition scenario_thresholds : list Q := [0.9; 0.5; 0.1].
Definition scenario_fpr : list Q := [0; 0.2; 1.0].
Definition scenario_tpr : list Q := [0; 0.6; 1.0].

Definition scenario_params : BaseAnoDet.params :=
  {["max_fpr" := 0.3; "min_tpr" := 0.6; "sigma_k" := 2]}.

(** The same settings with no max-FPR bound. *)
Definition params_without_max_fpr : BaseAnoDet.params :=
  {["min_tpr" := 0.6; "sigma_k" := 2]}.

(** A detector whose [predict] gives the scores [0.1, 0.9] for a normal
    and an anomalous sample; [roc_curve], [auc] and [roc_auc_score] give
    what scikit-learn computes for them. *)
Definition two_sample_predict (_ : unit) (_ : option unit)
  : result (list Q * list Q) := Ok ([0.1; 0.9], [0.1; 0.9]).

Definition two_sample_roc_curve (_ : list bool) (_ : list Q)
  : result (list Q * list Q * list Q) :=
  Ok ([0; 0; 1], [0; 1; 1], [1.9; 0.9; 0.1]).

Definition two_sample_auc (_ _ : list Q) : result Q := Ok 1.

Definition two_sample_roc_auc_score (_ : list bool) (_ : list Q) (_ : Q)
  : result Q := Ok 1.

(** A training run on two storage blocks holding a step counter: each
    train phase moves both by one, and the val phase of epoch [e] reports
    the [e]-th of the given losses, with accuracy [e/10]. *)
Definition counter_det : Train.detector :=
  {| Train.model := 0; Train.metric_fc := 1 |}.

Definition counter_train_phase (_ : nat) (tr : unit) (w : nat * nat)
  : unit * (nat * nat) := (tr, (S w.1, S w.2)).

Definition losses_val_phase (losses : list Q) (epoch : nat) (_ : unit)
    (_ : nat * nat) : Q * Q :=
  (default 0 (losses !! epoch), inject_Z (Z.of_nat epoch) / 10).

Definition counter_run (losses : list Q) : Train.train_result * Train.heap nat :=
  Train.train_model counter_train_phase (losses_val_phase losses)
    counter_det (length losses) tt (fun _ => 0%nat).

(** * Properties *)

Import BaseAnoDet.

(** ** The leftmost scan *)

Lemma Qle_bool_false (a b : Q) : Qle_bool a b = false <-> b < a.
Proof.
  split; intros H.
  - apply Qnot_le_lt. intros Hle. apply Qle_bool_iff in Hle. congruence.
  - destruct (Qle_bool a b) eqn:E; [|done].
    apply Qle_bool_iff in E. exfalso. by apply (Qlt_not_le b a).
Qed.

(** The scan finds a threshold exactly at the first index whose rate
    passes the test. *)
Lemma first_pair_Some test ths rates th :
  first_pair test ths rates = Some th <->
  exists i r, ths !! i = Some th /\ rates !! i = Some r /\ test r = true /\
    forall j r', (j < i)%nat -> rates !! j = Some r' -> test r' = false.
Proof.
  revert rates. induction ths as [|t ths IH]; intros [|r rates]; simpl.
  - split; [done|]. by intros (i & r & H & _).
  - split; [done|]. by intros (i & r' & H & _).
  - split; [done|]. by intros (i & r & _ & H & _).
  - destruct (test r) eqn:Et.
    + split.
      * intros [= <-]. exists 0%nat, r. repeat split; auto. intros; lia.
      * intros (i & r' & Hi & Hr & Ht & Hmin). destruct i as [|i]; [done|].
        specialize (Hmin 0%nat r ltac:(lia) eq_refl). congruence.
    + rewrite IH. split.
      * intros (i & r' & Hi & Hr & Ht & Hmin). exists (S i), r'.
        repeat split; auto. intros [|j] r'' Hj Hr''; simpl in *.
        -- congruence.
        -- apply (Hmin j); [lia|done].
      * intros (i & r' & Hi & Hr & Ht & Hmin). destruct i as [|i]; simpl in *.
        -- congruence.
        -- exists i, r'. repeat split; auto. intros j r'' Hj Hr''.
           apply (Hmin (S j)); [lia|done].
Qed.

(** The scan falls through exactly when no zipped rate passes. *)
Lemma first_pair_None test ths rates :
  first_pair test ths rates = None <->
  forall i th r, ths !! i = Some th -> rates !! i = Some r -> test r = false.
Proof.
  revert rates. induction ths as [|t ths IH]; intros [|r rates]; simpl;
    try (split; [intros _ i th r' H1 H2; by destruct i|done]).
  destruct (test r) eqn:Et.
  - split; [done|]. intros H. specialize (H 0%nat t r eq_refl eq_refl). congruence.
  - rewrite IH. split.
    + intros H [|i] th r' H1 H2; simpl in *; [congruence|eauto].
    + intros H i th r' H1 H2. by apply (H (S i) th r').
Qed.

Lemma first_pair_elem test ths rates th :
  first_pair test ths rates = Some th -> th ∈ ths.
Proof.
  rewrite first_pair_Some. intros (i & r & Hi & _).
  by apply list_elem_of_lookup_2 in Hi.
Qed.

(** ** Threshold by minimum TPR *)

Section ByTpr.

Variables (thresholds tpr : list Q) (min_tpr : Q).

Lemma by_tpr_found th :
  first_pair (Qle_bool min_tpr) thresholds tpr = Some th ->
  binary_clf_thresh_by_tpr thresholds tpr min_tpr = Ok (Some th).
Proof. unfold binary_clf_thresh_by_tpr. by intros ->. Qed.

Lemma by_tpr_Some_inv th :
  binary_clf_thresh_by_tpr thresholds tpr min_tpr = Ok (Some th) ->
  first_pair (Qle_bool min_tpr) thresholds tpr = Some th.
Proof.
  unfold binary_clf_thresh_by_tpr.
  destruct (first_pair _ _ _); [congruence|].
  destruct (last tpr); [destruct (Qeq_bool _ _)|]; congruence.
Qed.

Lemma by_tpr_not_found :
  first_pair (Qle_bool min_tpr) thresholds tpr = None ->
  binary_clf_thresh_by_tpr thresholds tpr min_tpr =
    match last tpr with
    | None => Raise IndexError
    | Some r => if Qeq_bool r 1 then Ok None else Raise AssertionError
    end.
Proof. unfold binary_clf_thresh_by_tpr. by intros ->. Qed.

End ByTpr.

(** C1 (amended). On equal-length [(thresholds, tpr)],
    [binary_clf_thresh_by_tpr] returns a threshold exactly when it is the
    one at the leftmost index [i] with [tpr[i] >= min_tpr], and it does
    return one whenever some index qualifies.  When no index qualifies
    and [min_tpr <= 1], the call raises; it returns [None] without an
    error only when the last TPR is 1, which then lies below [min_tpr]. *)
Theorem thresh_by_tpr_leftmost_or_raises (thresholds tpr : list Q) (min_tpr : Q) :
  length thresholds = length tpr ->
  (forall th,
      binary_clf_thresh_by_tpr thresholds tpr min_tpr = Ok (Some th) <->
      exists i r, thresholds !! i = Some th /\ tpr !! i = Some r /\
        min_tpr <= r /\
        forall j r', (j < i)%nat -> tpr !! j = Some r' -> r' < min_tpr) /\
  ((exists i r, tpr !! i = Some r /\ min_tpr <= r) ->
   exists th, binary_clf_thresh_by_tpr thresholds tpr min_tpr = Ok (Some th)) /\
  ((forall i r, tpr !! i = Some r -> r < min_tpr) ->
   (min_tpr <= 1 -> raises (binary_clf_thresh_by_tpr thresholds tpr min_tpr)) /\
   (binary_clf_thresh_by_tpr thresholds tpr min_tpr = Ok None <->
    exists r, last tpr = Some r /\ r == 1 /\ 1 < min_tpr)).
Proof.
  intros Hlen. split; [|split].
  - intros th. split.
    + intros H%by_tpr_Some_inv. apply first_pair_Some in H
        as (i & r & Hi & Hr & Ht & Hmin).
      exists i, r. repeat split; auto.
      * by apply Qle_bool_iff.
      * intros j r' Hj Hr'. by apply Qle_bool_false, (Hmin j).
    + intros (i & r & Hi & Hr & Ht & Hmin). apply by_tpr_found, first_pair_Some.
      exists i, r. repeat split; auto.
      * by apply Qle_bool_iff.
      * intros j r' Hj Hr'. by apply Qle_bool_false, (Hmin j).
  - intros (i & r & Hr & Hle).
    destruct (first_pair (Qle_bool min_tpr) thresholds tpr) as [th|] eqn:E.
    + exists th. by apply by_tpr_found.
    + exfalso. assert (is_Some (thresholds !! i)) as [th Hth].
      { apply lookup_lt_is_Some. rewrite Hlen. by eapply lookup_lt_Some. }
      pose proof (proj1 (first_pair_None _ _ _) E i th r Hth Hr) as Hf.
      apply Qle_bool_false in Hf. by apply (Qlt_not_le r min_tpr).
  - intros Hnone.
    assert (first_pair (Qle_bool min_tpr) thresholds tpr = None) as E.
    { apply first_pair_None. intros i th r _ Hr. by apply Qle_bool_false, (Hnone i). }
    rewrite (by_tpr_not_found _ _ _ E). split.
    + intros Hle1. destruct (last tpr) as [r|] eqn:El; [|by exists IndexError].
      rewrite last_lookup in El. apply Hnone in El.
      destruct (Qeq_bool r 1) eqn:Eq; [|by exists AssertionError].
      apply Qeq_bool_iff in Eq. exfalso. rewrite Eq in El.
      by apply (Qlt_not_le 1 min_tpr).
    + destruct (last tpr) as [r|] eqn:El.
      * rewrite last_lookup in El. apply Hnone in El.
        destruct (Qeq_bool r 1) eqn:Eq.
        -- apply Qeq_bool_iff in Eq. split; [|done]. intros _. exists r.
           repeat split; auto. by rewrite <- Eq.
        -- split; [done|]. intros (r' & [= <-] & Eq' & _).
           apply Qeq_bool_iff in Eq'. congruence.
      * split; [done|]. by intros (r & ? & _).
Qed.

(** The scenario of the specification: the curve
    [thresholds=[0.9,0.5,0.1]], [tpr=[0,0.6,1.0]] with [min_tpr=0.6]
    gives 0.5. *)
Lemma thresh_by_tpr_scenario :
  binary_clf_thresh_by_tpr [0.9; 0.5; 0.1] [0; 0.6; 1.0] 0.6 = Ok (Some 0.5).
Proof.
  destruct (thresh_by_tpr_leftmost_or_raises
              [0.9; 0.5; 0.1] [0; 0.6; 1.0] 0.6 eq_refl) as [H _].
  apply H. exists 1%nat, 0.6. repeat split; try reflexivity.
  - discriminate.
  - intros j r' Hj Hr'. destruct j as [|j]; [|lia].
    injection Hr' as <-. reflexivity.
Defined.

(** C1 as stated fails: with [min_tpr = 1.5] no TPR of the scenario's
    curve qualifies, the last TPR is 1.0, and the call returns [None]
    without raising. *)
Lemma thresh_by_tpr_returns_none_silently :
  (forall i r, [0; 0.6; 1.0] !! i = Some r -> ~ 1.5 <= r) /\
  binary_clf_thresh_by_tpr [0.9; 0.5; 0.1] [0; 0.6; 1.0] 1.5 = Ok None /\
  ~ raises (binary_clf_thresh_by_tpr [0.9; 0.5; 0.1] [0; 0.6; 1.0] 1.5).
Proof.
  split; [|split].
  - intros i r Hr. destruct i as [|[|[|i]]]; try discriminate;
      injection Hr as <-; by apply Qlt_not_le.
  - reflexivity.
  - by intros [e He].
Qed.

(** ** Threshold by maximum FPR *)

Section ByFpr.

Variables (thresholds fpr : list Q).

Lemma by_fpr_found max_fpr th :
  first_pair (Qle_bool max_fpr) thresholds (tail fpr) = Some th ->
  binary_clf_thresh_by_fpr thresholds fpr max_fpr = Ok th.
Proof. unfold binary_clf_thresh_by_fpr. by intros ->. Qed.

Lemma by_fpr_fallback max_fpr th :
  first_pair (Qle_bool max_fpr) thresholds (tail fpr) = None ->
  last thresholds = Some th ->
  binary_clf_thresh_by_fpr thresholds fpr max_fpr = Ok th.
Proof. unfold binary_clf_thresh_by_fpr. by intros -> ->. Qed.

(** A non-empty [thresholds] always yields one of its elements, with the
    index it was taken at: the leftmost crossing, or the last index. *)
Lemma by_fpr_index max_fpr :
  thresholds <> [] ->
  exists i th, thresholds !! i = Some th /\
    binary_clf_thresh_by_fpr thresholds fpr max_fpr = Ok th /\
    ((exists r, fpr !! S i = Some r /\ max_fpr <= r /\
        forall j r', (j < i)%nat -> fpr !! S j = Some r' -> r' < max_fpr) \/
     (i = pred (length thresholds) /\
        forall j r', (j < length thresholds)%nat -> fpr !! S j = Some r' ->
          r' < max_fpr)).
Proof.
  intros Hne.
  destruct (first_pair (Qle_bool max_fpr) thresholds (tail fpr)) as [th|] eqn:E.
  - pose proof (by_fpr_found _ _ E) as Hret.
    apply first_pair_Some in E as (i & r & Hi & Hr & Ht & Hmin).
    exists i, th. repeat split; auto. left. exists r.
    rewrite lookup_tail in Hr. repeat split; auto.
    + by apply Qle_bool_iff.
    + intros j r' Hj Hr'. apply Qle_bool_false, (Hmin j); [done|].
      by rewrite lookup_tail.
  - apply last_is_Some in Hne as [th Hth].
    exists (pred (length thresholds)), th. rewrite <- last_lookup.
    repeat split; auto using by_fpr_fallback. right. split; [done|].
    intros j r' Hj Hr'.
    apply lookup_lt_is_Some in Hj as [t Ht].
    apply Qle_bool_false.
    apply (proj1 (first_pair_None _ _ _) E j t r'); [done|].
    by rewrite lookup_tail.
Qed.

End ByFpr.

(** C2. On a non-empty [thresholds], [binary_clf_thresh_by_fpr] returns
    [thresholds[i]] for the first [i] with [fpr[i+1] >= max_fpr], and
    [thresholds[-1]] when no shifted FPR reaches [max_fpr]. *)
Theorem thresh_by_fpr_shifted_scan_or_last (thresholds fpr : list Q) (max_fpr : Q) :
  thresholds <> [] ->
  (forall i th r,
      thresholds !! i = Some th -> fpr !! S i = Some r -> max_fpr <= r ->
      (forall j r', (j < i)%nat -> fpr !! S j = Some r' -> r' < max_fpr) ->
      binary_clf_thresh_by_fpr thresholds fpr max_fpr = Ok th) /\
  ((forall i r, (i < length thresholds)%nat -> fpr !! S i = Some r ->
      r < max_fpr) ->
   exists th, last thresholds = Some th /\
     binary_clf_thresh_by_fpr thresholds fpr max_fpr = Ok th).
Proof.
  intros Hne. split.
  - intros i th r Hi Hr Hle Hmin. apply by_fpr_found, first_pair_Some.
    exists i, r. rewrite lookup_tail. repeat split; auto.
    + by apply Qle_bool_iff.
    + intros j r' Hj Hr'. rewrite lookup_tail in Hr'.
      by apply Qle_bool_false, (Hmin j).
  - intros Hnone. apply last_is_Some in Hne as [th Hth]. exists th.
    split; [done|]. apply by_fpr_fallback; [|done].
    apply first_pair_None. intros i t r Ht Hr. rewrite lookup_tail in Hr.
    apply Qle_bool_false, (Hnone i); [|done]. by eapply lookup_lt_Some.
Qed.

(** The scenario of the specification: [thresholds=[0.9,0.5,0.1]],
    [fpr=[0,0.2,1.0]], [max_fpr=0.3] gives 0.5. *)
Lemma thresh_by_fpr_scenario :
  binary_clf_thresh_by_fpr [0.9; 0.5; 0.1] [0; 0.2; 1.0] 0.3 = Ok 0.5.
Proof.
  destruct (thresh_by_fpr_shifted_scan_or_last
              [0.9; 0.5; 0.1] [0; 0.2; 1.0] 0.3 ltac:(discriminate)) as [H _].
  apply (H 1%nat 0.5 1.0); try reflexivity.
  - discriminate.
  - intros j r' Hj Hr'. destruct j as [|j]; [|lia].
    injection Hr' as <-. reflexivity.
Defined.

(** C4. On a valid ROC curve, a larger [max_fpr] gives a threshold that
    is no larger. *)
Theorem thresh_by_fpr_monotone (thresholds fpr : list Q) (max_fpr1 max_fpr2 : Q) :
  thresholds <> [] ->
  length thresholds = length fpr ->
  strictly_decreasing thresholds ->
  non_decreasing fpr ->
  max_fpr1 <= max_fpr2 ->
  exists th1 th2,
    binary_clf_thresh_by_fpr thresholds fpr max_fpr1 = Ok th1 /\
    binary_clf_thresh_by_fpr thresholds fpr max_fpr2 = Ok th2 /\
    th2 <= th1.
Proof.
  intros Hne _ Hdec _ Hle.
  destruct (by_fpr_index thresholds fpr max_fpr1 Hne)
    as (i1 & th1 & Hi1 & Hret1 & Hwhy1).
  destruct (by_fpr_index thresholds fpr max_fpr2 Hne)
    as (i2 & th2 & Hi2 & Hret2 & Hwhy2).
  exists th1, th2. repeat split; auto.
  assert (i1 <= i2)%nat as Hidx.
  { pose proof (lookup_lt_Some _ _ _ Hi1) as Hlt1.
    pose proof (lookup_lt_Some _ _ _ Hi2) as Hlt2.
    destruct Hwhy2 as [(r2 & Hr2 & Hle2 & _)|[-> _]]; [|lia].
    destruct Hwhy1 as [(r1 & Hr1 & _ & Hmin1)|[-> Hall1]].
    - destruct (decide (i1 <= i2)%nat) as [|Hgt]; [done|]. exfalso.
      apply (Qlt_not_le r2 max_fpr1); [apply (Hmin1 i2); [lia|done]|].
      by apply Qle_trans with max_fpr2.
    - exfalso. apply (Qlt_not_le r2 max_fpr1); [by apply (Hall1 i2)|].
      by apply Qle_trans with max_fpr2. }
  destruct (decide (i1 = i2)) as [->|Hneq].
  - rewrite Hi1 in Hi2. injection Hi2 as ->. apply Qle_refl.
  - apply Qlt_le_weak, (Hdec i1 i2); [lia|done..].
Qed.

Lemma thresh_by_fpr_monotone_scenario :
  exists th1 th2,
    binary_clf_thresh_by_fpr [0.9; 0.5; 0.1] [0; 0.2; 1.0] 0.1 = Ok th1 /\
    binary_clf_thresh_by_fpr [0.9; 0.5; 0.1] [0; 0.2; 1.0] 0.3 = Ok th2 /\
    th2 <= th1.
Proof.
  apply thresh_by_fpr_monotone.
  - discriminate.
  - reflexivity.
  - intros i j a b Hij Hi Hj.
    destruct i as [|[|[|i]]]; destruct j as [|[|[|j]]];
      try discriminate; try lia;
      injection Hi as <-; injection Hj as <-; reflexivity.
  - intros i j a b Hij Hi Hj.
    destruct i as [|[|[|i]]]; destruct j as [|[|[|j]]];
      try discriminate; try lia;
      injection Hi as <-; injection Hj as <-; discriminate.
  - discriminate.
Defined.

(** ** Calibration *)

Lemma np_max_pair_ge_l (a b : Q) : a <= np_max_pair a b.
Proof.
  unfold np_max_pair. destruct (Qle_bool a b) eqn:E.
  - by apply Qle_bool_iff.
  - apply Qle_refl.
Qed.

Lemma np_max_pair_ge_r (a b : Q) : b <= np_max_pair a b.
Proof.
  unfold np_max_pair. destruct (Qle_bool a b) eqn:E.
  - apply Qle_refl.
  - by apply Qlt_le_weak, Qle_bool_false.
Qed.

Lemma np_max_pair_cases (a b : Q) :
  (a <= b /\ np_max_pair a b = b) \/ (b < a /\ np_max_pair a b = a).
Proof.
  unfold np_max_pair. destruct (Qle_bool a b) eqn:E.
  - left. split; [by apply Qle_bool_iff|done].
  - right. split; [by apply Qle_bool_false|done].
Qed.

Lemma np_finfo_float_eps_pos : 0 < np_finfo_float_eps.
Proof. reflexivity. Qed.

Section CalcThresholds.

Variables np_mean np_std : list Q -> Q.
Variables (p : params) (fpr tpr thresholds scores : list Q) (show_thresh : bool).

(** What a successful [calc_thresholds] went through. *)
Lemma calc_thresholds_inv norm_threshs norm_factor :
  calc_thresholds np_mean np_std p fpr tpr thresholds scores show_thresh
    = Ok (norm_threshs, norm_factor) ->
  exists max_fpr min_tpr sigma_k th_fpr th_tpr,
    p !! "max_fpr" = Some max_fpr /\ p !! "min_tpr" = Some min_tpr /\
    p !! "sigma_k" = Some sigma_k /\
    binary_clf_thresh_by_fpr thresholds fpr max_fpr = Ok th_fpr /\
    binary_clf_thresh_by_tpr thresholds tpr min_tpr = Ok (Some th_tpr) /\
    norm_factor = np_max_pair (np_mean scores) np_finfo_float_eps /\
    norm_threshs =
      [(np_mean scores + sigma_k * np_std scores) / norm_factor;
       th_fpr / norm_factor; th_tpr / norm_factor].
Proof.
  unfold calc_thresholds.
  destruct (p !! "max_fpr") as [max_fpr|]; [|done].
  destruct (p !! "min_tpr") as [min_tpr|]; [|done].
  destruct (p !! "sigma_k") as [sigma_k|]; [|done].
  destruct (binary_clf_thresh_by_fpr _ _ _) as [th_fpr|] eqn:Ef; [|done].
  destruct (binary_clf_thresh_by_tpr _ _ _) as [[th_tpr|]|] eqn:Et; [|done..].
  simpl. intros [= <- <-].
  by exists max_fpr, min_tpr, sigma_k, th_fpr, th_tpr.
Qed.

Lemma calc_thresholds_intro max_fpr min_tpr sigma_k th_fpr th_tpr :
  p !! "max_fpr" = Some max_fpr -> p !! "min_tpr" = Some min_tpr ->
  p !! "sigma_k" = Some sigma_k ->
  binary_clf_thresh_by_fpr thresholds fpr max_fpr = Ok th_fpr ->
  binary_clf_thresh_by_tpr thresholds tpr min_tpr = Ok (Some th_tpr) ->
  calc_thresholds np_mean np_std p fpr tpr thresholds scores show_thresh =
    let norm_factor := np_max_pair (np_mean scores) np_finfo_float_eps in
    Ok ([(np_mean scores + sigma_k * np_std scores) / norm_factor;
         th_fpr / norm_factor; th_tpr / norm_factor], norm_factor).
Proof.
  intros Hf Ht Hk Ef Et. unfold calc_thresholds.
  by rewrite Hf, Ht, Hk, Ef, Et.
Qed.

(** Without one of the three settings [calc_thresholds] stops at its
    assertions. *)
Lemma calc_thresholds_unset key :
  key ∈ ["max_fpr"; "min_tpr"; "sigma_k"] -> p !! key = None ->
  calc_thresholds np_mean np_std p fpr tpr thresholds scores show_thresh
    = Raise AssertionError.
Proof.
  unfold calc_thresholds. intros Hkey Hnone.
  destruct (p !! "max_fpr") eqn:E1; [|done].
  destruct (p !! "min_tpr") eqn:E2; [|done].
  destruct (p !! "sigma_k") eqn:E3; [|done].
  exfalso. set_unfold. destruct Hkey as [->|[->|[->|[]]]]; congruence.
Qed.

End CalcThresholds.

(** C3. [calc_thresholds] succeeds exactly when the three settings are
    there and both ROC policies give a threshold; it then returns
    [[sigma, fpr, tpr]] in this order, the sigma threshold being
    [mean + sigma_k * std], each divided by the norm factor. *)
Theorem calc_thresholds_three_policies (np_mean np_std : list Q -> Q)
    (p : params) (fpr tpr thresholds scores : list Q) (show_thresh : bool)
    (norm_threshs : list Q) (norm_factor : Q) :
  calc_thresholds np_mean np_std p fpr tpr thresholds scores show_thresh
    = Ok (norm_threshs, norm_factor) <->
  exists max_fpr min_tpr sigma_k th_fpr th_tpr,
    p !! "max_fpr" = Some max_fpr /\ p !! "min_tpr" = Some min_tpr /\
    p !! "sigma_k" = Some sigma_k /\
    binary_clf_thresh_by_fpr thresholds fpr max_fpr = Ok th_fpr /\
    binary_clf_thresh_by_tpr thresholds tpr min_tpr = Ok (Some th_tpr) /\
    norm_factor = np_max_pair (np_mean scores) np_finfo_float_eps /\
    norm_threshs =
      [(np_mean scores + sigma_k * np_std scores) / norm_factor;
       th_fpr / norm_factor; th_tpr / norm_factor].
Proof.
  split; [apply calc_thresholds_inv|].
  intros (max_fpr & min_tpr & sigma_k & th_fpr & th_tpr &
          Hf & Ht & Hk & Ef & Et & -> & ->).
  by rewrite (calc_thresholds_intro _ _ _ _ _ _ _ _ _ _ _ _ _ Hf Ht Hk Ef Et).
Qed.

(** The scenario of the specification: scores [8, 12] have mean 10 and
    population standard deviation 2; with [sigma_k = 2] the sigma
    threshold is 14, normalized 1.4 by the norm factor 10. *)
Lemma calc_thresholds_scenario :
  calc_thresholds (fun _ => 10) (fun _ => 2) scenario_params
    scenario_fpr scenario_tpr scenario_thresholds [8; 12] true
  = Ok ([1.4; 0.05; 0.05], 10).
Proof.
  apply calc_thresholds_three_policies.
  exists 0.3, 0.6, 2, 0.5, 0.5. repeat split; reflexivity.
Defined.

(** C5 (amended). The norm factor [calc_thresholds] returns is the
    larger of the mean score and the machine epsilon 2^-52, hence
    positive whatever the mean. *)
Theorem norm_factor_max_of_mean_and_eps (np_mean np_std : list Q -> Q)
    (p : params) (fpr tpr thresholds scores : list Q) (show_thresh : bool)
    (norm_threshs : list Q) (norm_factor : Q) :
  calc_thresholds np_mean np_std p fpr tpr thresholds scores show_thresh
    = Ok (norm_threshs, norm_factor) ->
  norm_factor = np_max_pair (np_mean scores) (1 # 2 ^ 52) /\
  np_mean scores <= norm_factor /\
  1 # 2 ^ 52 <= norm_factor /\
  (norm_factor = np_mean scores \/ norm_factor = 1 # 2 ^ 52) /\
  0 < norm_factor.
Proof.
  intros (_ & _ & _ & _ & _ & _ & _ & _ & _ & _ & -> & _)%calc_thresholds_inv.
  change (1 # 2 ^ 52) with np_finfo_float_eps.
  repeat split.
  - apply np_max_pair_ge_l.
  - apply np_max_pair_ge_r.
  - destruct (np_max_pair_cases (np_mean scores) np_finfo_float_eps)
      as [[_ ->]|[_ ->]]; auto.
  - eapply Qlt_le_trans; [apply np_finfo_float_eps_pos|apply np_max_pair_ge_r].
Qed.

(** Scores [-4, -2] have mean -3: the norm factor is 2^-52. *)
Lemma norm_factor_negative_mean :
  np_max_pair (-3) (1 # 2 ^ 52) = 1 # 2 ^ 52 /\ 0 < 1 # 2 ^ 52.
Proof.
  destruct (norm_factor_max_of_mean_and_eps (fun _ => -3) (fun _ => 1)
              scenario_params scenario_fpr scenario_tpr scenario_thresholds
              [-4; -2] false
              [(-3 + 2 * 1) / (1 # 2 ^ 52); 0.5 / (1 # 2 ^ 52);
               0.5 / (1 # 2 ^ 52)]
              (1 # 2 ^ 52) eq_refl) as (H & _ & _ & _ & Hpos).
  split; [by symmetry|done].
Defined.

(** C5 as stated fails: for the one score 2^-60, whose mean is 2^-60, the
    norm factor is 2^-52, not the larger of the mean and the smallest
    positive double, which is the mean itself. *)
Lemma norm_factor_not_smallest_positive_double :
  exists norm_threshs,
    calc_thresholds (fun _ => 1 # 2 ^ 60) (fun _ => 0) scenario_params
      scenario_fpr scenario_tpr scenario_thresholds [1 # 2 ^ 60] false
    = Ok (norm_threshs, 1 # 2 ^ 52) /\
    np_max_pair (1 # 2 ^ 60) smallest_positive_double = 1 # 2 ^ 60 /\
    ~ (1 # 2 ^ 52 == np_max_pair (1 # 2 ^ 60) smallest_positive_double).
Proof.
  eexists. split; [reflexivity|]. split; [reflexivity|].
  vm_compute. discriminate.
Qed.

(** ** Score normalization *)

(** C6. [normalize_score] raises exactly when [distance_norm_factor] is
    not in the parameters, and what it raises is [ValueError]; with the
    factor set it returns the scores divided by it. *)
Theorem normalize_score_raises_iff_unset (p : params) (scores : list Q) :
  (raises (normalize_score p scores) <-> p !! "distance_norm_factor" = None) /\
  (forall e, normalize_score p scores = Raise e -> e = ValueError) /\
  (forall d, p !! "distance_norm_factor" = Some d ->
     normalize_score p scores = Ok ((fun s => s / d) <$> scores)).
Proof.
  unfold normalize_score.
  destruct (p !! "distance_norm_factor") as [d|]; (split; [split|split]).
  - by intros [e He].
  - done.
  - by intros e.
  - by intros d' [= ->].
  - done.
  - by exists ValueError.
  - by intros e [= <-].
  - done.
Qed.

Example normalize_score_set :
  normalize_score {["distance_norm_factor" := 10]} [14; 5] = Ok [1.4; 0.5].
Proof. reflexivity. Qed.

Example normalize_score_unset :
  normalize_score scenario_params [14; 5] = Raise ValueError.
Proof. reflexivity. Qed.

(** ** Evaluation *)

Section EvaluateTest.

Context {Samples Labels Raw : Type}.
Variables np_mean np_std : list Q -> Q.
Variable predict : Samples -> option Labels -> result (list Q * Raw).
Variable roc_curve : list bool -> list Q -> result (list Q * list Q * list Q).
Variable auc : list Q -> list Q -> result Q.
Variable roc_auc_score : list bool -> list Q -> Q -> result Q.

Variables (p : params) (test_samples : Samples) (test_y_trues : list bool)
  (test_labels : option Labels) (show_thresh : bool).

Let run := evaluate_test np_mean np_std predict roc_curve auc roc_auc_score
  p test_samples test_y_trues test_labels show_thresh.

(** With no max-FPR bound, [evaluate_test] sets [pauc] to [None] and
    then stops at the assertion of [calc_thresholds]. *)
Lemma evaluate_test_unset_raises :
  p !! "max_fpr" = None -> raises run.
Proof.
  intros Hnone. unfold run, evaluate_test.
  destruct (predict _ _) as [[scores raw]|e]; [simpl|by exists e].
  destruct (roc_curve _ _) as [[[fpr tpr] thresholds]|e]; [simpl|by exists e].
  destruct (auc _ _) as [a|e]; [simpl|by exists e].
  rewrite Hnone. simpl.
  rewrite (calc_thresholds_unset _ _ _ _ _ _ _ _ "max_fpr");
    [by exists AssertionError|set_solver|done].
Qed.

Lemma evaluate_test_unset_assertion scores raw fpr tpr thresholds a :
  p !! "max_fpr" = None ->
  predict test_samples test_labels = Ok (scores, raw) ->
  roc_curve test_y_trues scores = Ok (fpr, tpr, thresholds) ->
  auc fpr tpr = Ok a ->
  run = Raise AssertionError.
Proof.
  intros Hnone Hp Hc Ha. unfold run, evaluate_test.
  rewrite Hp. simpl. rewrite Hc. simpl. rewrite Ha. simpl.
  rewrite Hnone. simpl.
  by rewrite (calc_thresholds_unset _ _ _ _ _ _ _ _ "max_fpr");
    [|set_solver|done].
Qed.

Lemma evaluate_test_inv a pauc norm_threshs norm_factor scores raw :
  run = Ok (a, pauc, norm_threshs, norm_factor, scores, raw) ->
  exists max_fpr v, p !! "max_fpr" = Some max_fpr /\
    predict test_samples test_labels = Ok (scores, raw) /\
    roc_auc_score test_y_trues scores max_fpr = Ok v /\ pauc = Some v.
Proof.
  unfold run, evaluate_test.
  destruct (predict _ _) as [[scores' raw']|e]; [simpl|done].
  destruct (roc_curve _ _) as [[[fpr tpr] thresholds]|e]; [simpl|done].
  destruct (auc _ _) as [a'|e]; [simpl|done].
  destruct (p !! "max_fpr") as [max_fpr|] eqn:Hm; simpl.
  - destruct (roc_auc_score _ _ _) as [v|e] eqn:Ev; [simpl|done].
    destruct (calc_thresholds _ _ _ _ _ _ _ _) as [[nt nf]|e]; [simpl|done].
    intros [= <- <- <- <- <- <-]. by exists max_fpr, v.
  - by rewrite (calc_thresholds_unset _ _ _ _ _ _ _ _ "max_fpr");
      [|set_solver|done].
Qed.

End EvaluateTest.

(** C7 (amended). With no max-FPR bound in the parameters,
    [evaluate_test] raises: it sets [pauc] to [None] and then stops at
    the assertion of [calc_thresholds].  Whenever it returns, a bound is
    set and [pauc] is the [roc_auc_score] computed with it. *)
Theorem evaluate_test_pauc_needs_max_fpr {Samples Labels Raw : Type}
    (np_mean np_std : list Q -> Q)
    (predict : Samples -> option Labels -> result (list Q * Raw))
    (roc_curve : list bool -> list Q -> result (list Q * list Q * list Q))
    (auc : list Q -> list Q -> result Q)
    (roc_auc_score : list bool -> list Q -> Q -> result Q)
    (p : params) (test_samples : Samples) (test_y_trues : list bool)
    (test_labels : option Labels) (show_thresh : bool) :
  let run := evaluate_test np_mean np_std predict roc_curve auc roc_auc_score
               p test_samples test_y_trues test_labels show_thresh in
  (p !! "max_fpr" = None -> raises run) /\
  (forall a pauc norm_threshs norm_factor scores raw,
     run = Ok (a, pauc, norm_threshs, norm_factor, scores, raw) ->
     exists max_fpr v, p !! "max_fpr" = Some max_fpr /\
       roc_auc_score test_y_trues scores max_fpr = Ok v /\ pauc = Some v).
Proof.
  split.
  - apply evaluate_test_unset_raises.
  - intros a pauc nt nf scores raw H.
    apply evaluate_test_inv in H as (max_fpr & v & Hm & _ & Hv & ->).
    by exists max_fpr, v.
Qed.

(** With the bound 0.3 set, the evaluation of the two samples returns,
    and its [pauc] is the score computed with that bound. *)
Lemma evaluate_test_two_samples :
  exists max_fpr v, scenario_params !! "max_fpr" = Some max_fpr /\
    two_sample_roc_auc_score [false; true] [0.1; 0.9] max_fpr = Ok v /\
    Some 1 = Some v.
Proof.
  apply (proj2 (evaluate_test_pauc_needs_max_fpr
                  (fun _ => 0.5) (fun _ => 0.4) two_sample_predict
                  two_sample_roc_curve two_sample_auc two_sample_roc_auc_score
                  scenario_params tt [false; true] None false)
           1 (Some 1) [(0.5 + 2 * 0.4) / 0.5; 0.9 / 0.5; 0.9 / 0.5] 0.5
           [0.1; 0.9] [0.1; 0.9]).
  reflexivity.
Defined.

(** C7 as stated fails: with [min_tpr] and [sigma_k] set and no max-FPR
    bound, the evaluation of the two samples returns nothing; it raises
    [AssertionError]. *)
Lemma evaluate_test_without_max_fpr_raises :
  params_without_max_fpr !! "max_fpr" = None /\
  evaluate_test (fun _ => 0.5) (fun _ => 0.4) two_sample_predict
    two_sample_roc_curve two_sample_auc two_sample_roc_auc_score
    params_without_max_fpr tt [false; true] None false
  = Raise AssertionError.
Proof. split; reflexivity. Qed.

(** ** The training loop *)

Import Train.

Lemma Qltb_true (a b : Q) : Qltb a b = true <-> a < b.
Proof. unfold Qltb. rewrite negb_true_iff. apply Qle_bool_false. Qed.

Lemma Qltb_false (a b : Q) : Qltb a b = false <-> b <= a.
Proof. unfold Qltb. rewrite negb_false_iff. apply Qle_bool_iff. Qed.

Section TrainLoop.

Context {W Trainer : Type}.
Variable train_phase : nat -> Trainer -> W * W -> Trainer * (W * W).
Variable val_phase : nat -> Trainer -> W * W -> Q * Q.
Variable det : detector.

Let body := epoch_body train_phase val_phase det.
Let history := val_history train_phase val_phase det.

(** Over any run of epochs, either no val loss went below the best so
    far and the bookkeeping is untouched, or the bookkeeping is that of
    the earliest epoch with the least val loss. *)
Lemma epochs_select_earliest_least (epochs : list nat) (st : loop_state) :
  let st' := fold_left body epochs st in
  let hist := history epochs (trainer st) (live st) in
  (best_loss st' = best_loss st /\ best_acc st' = best_acc st /\
   best_model_wts st' = best_model_wts st /\
   forall i l a, hist !! i = Some (l, a) -> best_loss st <= l) \/
  (exists i l a, hist !! i = Some (l, a) /\
     best_loss st' = l /\ best_acc st' = a /\
     best_model_wts st' = _get_model_wts det /\ l < best_loss st /\
     (forall j l' a', hist !! j = Some (l', a') -> l <= l') /\
     (forall j l' a', (j < i)%nat -> hist !! j = Some (l', a') -> l < l')).
Proof.
  revert st. induction epochs as [|e epochs IH]; intros st; simpl.
  - left. repeat split; auto. intros i l a H. by destruct i.
  - specialize (IH (body st e)). revert IH.
    unfold body, history, epoch_body. simpl.
    destruct (run_train_phase _ _ _ _ _) as [tr h].
    destruct (run_val_phase _ _ _ _ _) as [l a].
    destruct (Qltb l (best_loss st)) eqn:Elt; simpl; intros IH.
    + apply Qltb_true in Elt. right.
      destruct IH as [(Hl & Ha & Hw & Hall)
                     |(i & l' & a' & Hi & Hl & Ha & Hw & Hlt & Hmin & Hfirst)].
      * exists 0%nat, l, a. repeat split; auto.
        -- intros [|j] l' a' Hj; simpl in Hj.
           ++ injection Hj as <- <-. apply Qle_refl.
           ++ by apply (Hall j l' a').
        -- intros; lia.
      * exists (S i), l', a'. repeat split; auto.
        -- by apply Qlt_trans with l.
        -- intros [|j] l'' a'' Hj; simpl in Hj.
           ++ injection Hj as <- <-. by apply Qlt_le_weak.
           ++ by apply (Hmin j l'' a'').
        -- intros [|j] l'' a'' Hlt' Hj; simpl in Hj.
           ++ by injection Hj as <- <-.
           ++ apply (Hfirst j l'' a''); [lia|done].
    + apply Qltb_false in Elt.
      destruct IH as [(Hl & Ha & Hw & Hall)
                     |(i & l' & a' & Hi & Hl & Ha & Hw & Hlt & Hmin & Hfirst)].
      * left. repeat split; auto.
        intros [|j] l' a' Hj; simpl in Hj.
        -- by injection Hj as <- <-.
        -- by apply (Hall j l' a').
      * right. exists (S i), l', a'. repeat split; auto.
        -- intros [|j] l'' a'' Hj; simpl in Hj.
           ++ injection Hj as <- <-.
              apply Qlt_le_weak. by apply Qlt_le_trans with (best_loss st).
           ++ by apply (Hmin j l'' a'').
        -- intros [|j] l'' a'' Hlt' Hj; simpl in Hj.
           ++ injection Hj as <- <-.
              by apply Qlt_le_trans with (best_loss st).
           ++ apply (Hfirst j l'' a''); [lia|done].
Qed.

(** The best state dict is the detector's own at every point of the
    loop: it was taken from it and shares its storage. *)
Lemma epochs_best_shares_storage (epochs : list nat) (st : loop_state) :
  best_model_wts st = _get_model_wts det ->
  best_model_wts (fold_left body epochs st) = _get_model_wts det.
Proof.
  intros H.
  destruct (epochs_select_earliest_least epochs st)
    as [(_ & _ & -> & _)|(_ & _ & _ & _ & _ & _ & -> & _)]; done.
Qed.

(** Loading a module's own state dict changes nothing. *)
Lemma set_model_wts_self (h : heap W) (l : loc) :
  _set_model_wts det (_get_model_wts det) h l = h l.
Proof.
  unfold _set_model_wts, load_state_dict, _get_model_wts, state_dict. simpl.
  destruct (decide (metric_fc det = l)) as [<-|Hfc].
  - rewrite fn_lookup_insert.
    destruct (decide (model det = metric_fc det)) as [->|Hm].
    + by rewrite fn_lookup_insert.
    + by rewrite fn_lookup_insert_ne.
  - rewrite fn_lookup_insert_ne by done.
    destruct (decide (model det = l)) as [<-|Hm].
    + by rewrite fn_lookup_insert.
    + by rewrite fn_lookup_insert_ne.
Qed.

End TrainLoop.

(** The bookkeeping [train_model] returns is selected by
    strict less-than against a running best that starts at 1e10: when no
    val loss is below 1e10 nothing is ever selected, and [best_loss] and
    [best_acc] stay 1e10 and 0; otherwise they are the loss and accuracy
    of the earliest epoch with the least val loss.  After the run the
    live parameters are what the returned best weights hold, and the
    record also has the last weights, taken from the detector after the
    final epoch. *)
Theorem train_model_selects_earliest_least {W Trainer : Type}
    (train_phase : nat -> Trainer -> W * W -> Trainer * (W * W))
    (val_phase : nat -> Trainer -> W * W -> Q * Q)
    (det : detector) (num_epochs : nat) (tr0 : Trainer) (h0 : heap W) :
  let run := train_model train_phase val_phase det num_epochs tr0 h0 in
  let hist := val_history train_phase val_phase det (seq 0 num_epochs) tr0 h0 in
  (((forall i l a, hist !! i = Some (l, a) -> 1e10 <= l) /\
    r_best_loss run.1 = 1e10 /\ r_best_acc run.1 = 0) \/
   (exists i l a, hist !! i = Some (l, a) /\ l < 1e10 /\
      r_best_loss run.1 = l /\ r_best_acc run.1 = a /\
      (forall j l' a', hist !! j = Some (l', a') -> l <= l') /\
      (forall j l' a', (j < i)%nat -> hist !! j = Some (l', a') -> l < l'))) /\
  (run.2 (model det), run.2 (metric_fc det)) = contents run.2 (best_weights run.1) /\
  last_weights run.1 = _get_model_wts det.
Proof.
  intros run hist. unfold run, hist, train_model. simpl.
  set (st0 := {| trainer := tr0; live := h0; best_acc := 0; best_loss := 1e10;
                 best_model_wts := _get_model_wts det |}).
  split; [|split; [|done]].
  - destruct (epochs_select_earliest_least train_phase val_phase det
                (seq 0 num_epochs) st0)
      as [(Hl & Ha & _ & Hall)|(i & l & a & Hi & Hl & Ha & _ & Hlt & Hmin & Hfirst)].
    + left. by rewrite Hl, Ha.
    + right. exists i, l, a. by rewrite Hl, Ha.
  - by rewrite (epochs_best_shares_storage train_phase val_phase det
                  (seq 0 num_epochs) st0).
Qed.

(** The run of the specification, with the val losses [0.5, 0.3, 0.4]. *)
Lemma train_model_losses_scenario :
  let run := counter_run [0.5; 0.3; 0.4] in
  let hist := val_history counter_train_phase (losses_val_phase [0.5; 0.3; 0.4])
                counter_det (seq 0 3) tt (fun _ => 0%nat) in
  (((forall i l a, hist !! i = Some (l, a) -> 1e10 <= l) /\
    r_best_loss run.1 = 1e10 /\ r_best_acc run.1 = 0) \/
   (exists i l a, hist !! i = Some (l, a) /\ l < 1e10 /\
      r_best_loss run.1 = l /\ r_best_acc run.1 = a /\
      (forall j l' a', hist !! j = Some (l', a') -> l <= l') /\
      (forall j l' a', (j < i)%nat -> hist !! j = Some (l', a') -> l < l'))) /\
  (run.2 (model counter_det), run.2 (metric_fc counter_det))
    = contents run.2 (best_weights run.1) /\
  last_weights run.1 = _get_model_wts counter_det.
Proof.
  apply (train_model_selects_earliest_least counter_train_phase
           (losses_val_phase [0.5; 0.3; 0.4]) counter_det 3 tt
           (fun _ => 0%nat)).
Defined.

(** There the selection is that of epoch 1: its loss 0.3 and its
    accuracy. *)
Example counter_run_selects_epoch_1 :
  r_best_loss (counter_run [0.5; 0.3; 0.4]).1 = 0.3 /\
  r_best_acc (counter_run [0.5; 0.3; 0.4]).1 = inject_Z 1 / 10 /\
  val_history counter_train_phase (losses_val_phase [0.5; 0.3; 0.4])
    counter_det (seq 0 3) tt (fun _ => 0%nat) !! 1%nat
    = Some (0.3, inject_Z 1 / 10).
Proof. repeat split; reflexivity. Qed.

(** For the val losses [2e10, 3e10] nothing is selected: the least loss
    is that of epoch 0, whose val phase ran on the parameters [(1, 1)];
    the returned best loss is 1e10 and the best weights hold [(2, 2)]. *)
Lemma train_model_keeps_initial_best :
  (val_history counter_train_phase (losses_val_phase [2e10; 3e10])
     counter_det (seq 0 2) tt (fun _ => 0%nat)).*1 = [2e10; 3e10] /\
  validated_weights counter_train_phase counter_det 0 tt (fun _ => 0%nat)
    = (1%nat, 1%nat) /\
  r_best_loss (counter_run [2e10; 3e10]).1 = 1e10 /\
  contents (counter_run [2e10; 3e10]).2 (best_weights (counter_run [2e10; 3e10]).1)
    = (2%nat, 2%nat).
Proof. repeat split; reflexivity. Qed.

(** The best weights returned share the storage of the last weights:
    for the losses [0.5, 0.3, 0.4] both hold the parameters of the final
    epoch, not those validated at epoch 1. *)
Lemma train_model_best_shares_last {W Trainer : Type}
    (train_phase : nat -> Trainer -> W * W -> Trainer * (W * W))
    (val_phase : nat -> Trainer -> W * W -> Q * Q)
    (det : detector) (num_epochs : nat) (tr0 : Trainer) (h0 : heap W) :
  let run := train_model train_phase val_phase det num_epochs tr0 h0 in
  best_weights run.1 = last_weights run.1.
Proof.
  simpl. set (st0 := {| trainer := tr0; live := h0; best_acc := 0;
                        best_loss := 1e10;
                        best_model_wts := _get_model_wts det |}).
  by rewrite (epochs_best_shares_storage train_phase val_phase det
                (seq 0 num_epochs) st0).
Qed.

Example counter_run_best_holds_final_epoch :
  contents (counter_run [0.5; 0.3; 0.4]).2
    (best_weights (counter_run [0.5; 0.3; 0.4]).1) = (3%nat, 3%nat) /\
  validated_weights counter_train_phase counter_det 1 tt (fun _ => 0%nat)
    = (2%nat, 2%nat).
Proof. split; reflexivity. Qed.

(** C8, at the failing input. Three epochs, each moving the parameters,
    with the val losses [0.5, 0.3, 0.4]: the selection is made at epoch
    1, the earliest with the least loss, whose val phase ran on the
    parameters [(2, 2)]. The best weights returned, the last weights and
    the live parameters all hold [(3, 3)], what the final epoch left:
    the snapshot of epoch 1 is lost, no copy of it having been taken. *)
Theorem train_model_best_weights_hold_final_epoch :
  let run := counter_run [0.5; 0.3; 0.4] in
  (val_history counter_train_phase (losses_val_phase [0.5; 0.3; 0.4])
     counter_det (seq 0 3) tt (fun _ => 0%nat)).*1 = [0.5; 0.3; 0.4] /\
  r_best_loss run.1 = 0.3 /\
  validated_weights counter_train_phase counter_det 1 tt (fun _ => 0%nat)
    = (2%nat, 2%nat) /\
  contents run.2 (best_weights run.1) = (3%nat, 3%nat) /\
  contents run.2 (last_weights run.1) = (3%nat, 3%nat) /\
  (run.2 (model counter_det), run.2 (metric_fc counter_det)) = (3%nat, 3%nat) /\
  contents run.2 (best_weights run.1)
    <> validated_weights counter_train_phase counter_det 1 tt (fun _ => 0%nat).
Proof. repeat split; try reflexivity. discriminate. Qed.

(** ** Checkpoint keys *)

Import Dadgt.

(** A key that does not start with ["model."] is kept as it is. *)
Lemma new_key_other (k : string) :
  String.substring 0 6 k <> "model." -> new_key k = k.
Proof.
  intros H. unfold new_key. simpl String.length.
  destruct (String.eqb_spec "model." (String.substring 0 6 k)); congruence.
Qed.

Example new_key_resnet :
  new_key "model.layer1.0.conv1.weight" = "layer1.0.conv1.weight" /\
  new_key "fc.model.bias" = "fc.model.bias".
Proof. split; reflexivity. Qed.


(** ** Prediction *)

(** C10. [DADGT.predict] succeeds exactly when the normalities are
    computed; with [return_raw] it returns the abnormalities
    [1 - normality] twice, as scores and as raw scores, and without it
    the same abnormalities alone. *)
Theorem predict_raw_scores_are_scores {Samples Labels : Type}
    (simplified_normality : Samples -> result (list Q))
    (test_samples : Samples) (test_labels : option Labels)
    (return_raw : bool) (out : predicted) :
  predict simplified_normality test_samples test_labels return_raw = Ok out <->
  exists ns, simplified_normality test_samples = Ok ns /\
    let abnormalities := (fun n => 1 - n) <$> ns in
    out = if return_raw then ScoresRaw abnormalities abnormalities
          else Scores abnormalities.
Proof.
  unfold predict. destruct (simplified_normality test_samples) as [ns|e]; simpl.
  - split.
    + intros H. exists ns. split; [done|]. destruct return_raw; congruence.
    + intros (ns' & [= <-] & ->). by destruct return_raw.
  - split; [done|]. by intros (ns & ? & _).
Qed.

(** Two samples of normality 0.25 and 1: with [return_raw] both
    components are [0.75, 0]. *)
Lemma predict_two_samples :
  predict (fun _ : unit => Ok [0.25; 1]) tt (None : option unit) true
  = Ok (ScoresRaw [1 - 0.25; 1 - 1] [1 - 0.25; 1 - 1]).
Proof.
  apply predict_raw_scores_are_scores. exists [0.25; 1]. by split.
Defined.

(** * Further properties *)

(** ** The two ROC policies *)

(** [binary_clf_thresh_by_fpr] raises only on an empty [thresholds],
    whatever [fpr] is, and what it returns is one of the thresholds. *)
Theorem thresh_by_fpr_raises_iff_empty (thresholds fpr : list Q) (max_fpr : Q) :
  (raises (binary_clf_thresh_by_fpr thresholds fpr max_fpr) <-> thresholds = []) /\
  (forall e, binary_clf_thresh_by_fpr thresholds fpr max_fpr = Raise e ->
     e = IndexError) /\
  (forall th, binary_clf_thresh_by_fpr thresholds fpr max_fpr = Ok th ->
     th ∈ thresholds).
Proof.
  unfold binary_clf_thresh_by_fpr.
  destruct (first_pair _ thresholds (tail fpr)) as [th|] eqn:E.
  - apply first_pair_elem in E. split; [split|split].
    + by intros [e He].
    + intros ->. by apply elem_of_nil in E.
    + by intros e.
    + by intros th' [= <-].
  - destruct (last thresholds) as [th|] eqn:El.
    + split; [split|split].
      * by intros [e He].
      * by intros ->.
      * by intros e.
      * intros th' [= <-]. apply last_Some in El as [l' ->]. set_solver.
    + apply last_None in El as ->. split; [split|split].
      * done.
      * intros _. by exists IndexError.
      * by intros e [= <-].
      * done.
Qed.

(** On a curve whose first FPR is below [max_fpr], the threshold
    [binary_clf_thresh_by_fpr] returns has itself an FPR below [max_fpr],
    and every later point of the curve has an FPR of [max_fpr] or more:
    it is the loosest threshold within the bound. *)
Theorem thresh_by_fpr_loosest_within_bound (thresholds fpr : list Q)
    (max_fpr f0 : Q) :
  length thresholds = length fpr ->
  non_decreasing fpr ->
  fpr !! 0%nat = Some f0 -> f0 < max_fpr ->
  exists i th r,
    binary_clf_thresh_by_fpr thresholds fpr max_fpr = Ok th /\
    thresholds !! i = Some th /\ fpr !! i = Some r /\ r < max_fpr /\
    forall j r', (i < j)%nat -> fpr !! j = Some r' -> max_fpr <= r'.
Proof.
  intros Hlen Hmono Hf0 Hlt0.
  assert (thresholds <> []) as Hne.
  { intros ->. by destruct fpr. }
  destruct (by_fpr_index thresholds fpr max_fpr Hne)
    as (i & th & Hi & Hret & Hwhy).
  assert (is_Some (fpr !! i)) as [r Hr].
  { apply lookup_lt_is_Some. rewrite <- Hlen. by eapply lookup_lt_Some. }
  exists i, th, r. repeat split; auto.
  - destruct i as [|i]; [congruence|].
    destruct Hwhy as [(r1 & _ & _ & Hmin)|[_ Hall]].
    + apply (Hmin i); [lia|done].
    + apply (Hall i); [|done]. apply lookup_lt_Some in Hi. lia.
  - intros j r' Hj Hr'.
    destruct Hwhy as [(r1 & Hr1 & Hle1 & _)|[-> _]].
    + apply Qle_trans with r1; [done|].
      apply (Hmono (S i) j); [lia|done..].
    + apply lookup_lt_Some in Hr'. lia.
Qed.

Lemma thresh_by_fpr_loosest_scenario :
  exists i th r,
    binary_clf_thresh_by_fpr scenario_thresholds scenario_fpr 0.3 = Ok th /\
    scenario_thresholds !! i = Some th /\ scenario_fpr !! i = Some r /\
    r < 0.3 /\
    forall j r', (i < j)%nat -> scenario_fpr !! j = Some r' -> 0.3 <= r'.
Proof.
  apply (thresh_by_fpr_loosest_within_bound _ _ _ 0); try reflexivity.
  intros i j a b Hij Hi Hj.
  destruct i as [|[|[|i]]]; destruct j as [|[|[|j]]];
    try discriminate; try lia;
    injection Hi as <-; injection Hj as <-; discriminate.
Defined.

(** [binary_clf_thresh_by_tpr] is monotonic too: on decreasing
    thresholds a larger [min_tpr] gives a threshold that is no larger. *)
Theorem thresh_by_tpr_monotone (thresholds tpr : list Q)
    (min_tpr1 min_tpr2 th1 th2 : Q) :
  strictly_decreasing thresholds ->
  min_tpr1 <= min_tpr2 ->
  binary_clf_thresh_by_tpr thresholds tpr min_tpr1 = Ok (Some th1) ->
  binary_clf_thresh_by_tpr thresholds tpr min_tpr2 = Ok (Some th2) ->
  th2 <= th1.
Proof.
  intros Hdec Hle H1%by_tpr_Some_inv H2%by_tpr_Some_inv.
  apply first_pair_Some in H1 as (i1 & r1 & Hi1 & Hr1 & _ & Hmin1).
  apply first_pair_Some in H2 as (i2 & r2 & Hi2 & Hr2 & Ht2 & _).
  apply Qle_bool_iff in Ht2.
  destruct (decide (i2 < i1)%nat) as [Hlt|Hge].
  - exfalso. specialize (Hmin1 i2 r2 Hlt Hr2). apply Qle_bool_false in Hmin1.
    apply (Qlt_not_le r2 min_tpr1); [done|]. by apply Qle_trans with min_tpr2.
  - destruct (decide (i1 = i2)) as [->|Hneq].
    + rewrite Hi1 in Hi2. injection Hi2 as ->. apply Qle_refl.
    + apply Qlt_le_weak, (Hdec i1 i2); [lia|done..].
Qed.

Lemma thresh_by_tpr_monotone_scenario : 0.1 <= 0.5.
Proof.
  apply (thresh_by_tpr_monotone scenario_thresholds scenario_tpr 0.6 1
           0.5 0.1); try reflexivity; try discriminate.
  intros i j a b Hij Hi Hj.
  destruct i as [|[|[|i]]]; destruct j as [|[|[|j]]];
    try discriminate; try lia;
    injection Hi as <-; injection Hj as <-; reflexivity.
Defined.

Lemma by_tpr_last_reaches (thresholds tpr : list Q) (min_tpr r_last : Q) :
  length thresholds = length tpr ->
  last tpr = Some r_last -> min_tpr <= r_last ->
  exists th, first_pair (Qle_bool min_tpr) thresholds tpr = Some th.
Proof.
  intros Hlen Hlast Hle.
  destruct (first_pair (Qle_bool min_tpr) thresholds tpr) as [th|] eqn:E;
    [by exists th|].
  exfalso. rewrite last_lookup in Hlast.
  assert (is_Some (thresholds !! pred (length tpr))) as [th Hth].
  { apply lookup_lt_is_Some. rewrite Hlen. by eapply lookup_lt_Some. }
  pose proof (proj1 (first_pair_None _ _ _) E _ th r_last Hth Hlast) as Hf.
  apply Qle_bool_false in Hf. by apply (Qlt_not_le r_last min_tpr).
Qed.

(** On an equal-length curve whose last TPR reaches [min_tpr],
    [binary_clf_thresh_by_tpr] returns a threshold: it neither raises
    nor returns [None]. On decreasing thresholds, no threshold whose TPR
    reaches [min_tpr] is larger than the one returned. *)
Theorem thresh_by_tpr_returns_strictest (thresholds tpr : list Q)
    (min_tpr r_last : Q) :
  length thresholds = length tpr ->
  last tpr = Some r_last -> min_tpr <= r_last ->
  exists th,
    binary_clf_thresh_by_tpr thresholds tpr min_tpr = Ok (Some th) /\
    th ∈ thresholds /\
    (strictly_decreasing thresholds ->
     forall j t r, thresholds !! j = Some t -> tpr !! j = Some r ->
       min_tpr <= r -> t <= th).
Proof.
  intros Hlen Hlast Hle.
  destruct (by_tpr_last_reaches _ _ _ _ Hlen Hlast Hle) as [th E].
  exists th. split; [by apply by_tpr_found|].
  split; [by eapply first_pair_elem|].
  intros Hdec j t r Hj Hr Hler.
  apply first_pair_Some in E as (i & ri & Hi & Hri & _ & Hmin).
  destruct (decide (j < i)%nat) as [Hlt|Hge].
  - exfalso. specialize (Hmin j r Hlt Hr). apply Qle_bool_false in Hmin.
    by apply (Qlt_not_le r min_tpr).
  - destruct (decide (i = j)) as [->|Hneq].
    + rewrite Hi in Hj. injection Hj as ->. apply Qle_refl.
    + apply Qlt_le_weak, (Hdec i j); [lia|done..].
Qed.

Lemma thresh_by_tpr_returns_scenario :
  exists th,
    binary_clf_thresh_by_tpr scenario_thresholds scenario_tpr 0.6 = Ok (Some th) /\
    th ∈ scenario_thresholds /\
    (strictly_decreasing scenario_thresholds ->
     forall j t r, scenario_thresholds !! j = Some t ->
       scenario_tpr !! j = Some r -> 0.6 <= r -> t <= th).
Proof.
  apply (thresh_by_tpr_returns_strictest _ _ _ 1.0); try reflexivity.
  discriminate.
Defined.

(** ** Calibration, continued *)

(** With the three settings there, [calc_thresholds] succeeds on every
    equal-length curve whose last TPR reaches [min_tpr]: it returns three
    thresholds and a positive norm factor, the second and third being
    thresholds of the curve divided by it. *)
Theorem calc_thresholds_succeeds (np_mean np_std : list Q -> Q) (p : params)
    (fpr tpr thresholds scores : list Q) (show_thresh : bool)
    (max_fpr min_tpr sigma_k r_last : Q) :
  p !! "max_fpr" = Some max_fpr -> p !! "min_tpr" = Some min_tpr ->
  p !! "sigma_k" = Some sigma_k ->
  length thresholds = length tpr ->
  last tpr = Some r_last -> min_tpr <= r_last ->
  exists norm_threshs norm_factor th_fpr th_tpr,
    calc_thresholds np_mean np_std p fpr tpr thresholds scores show_thresh
      = Ok (norm_threshs, norm_factor) /\
    0 < norm_factor /\ length norm_threshs = 3%nat /\
    th_fpr ∈ thresholds /\ th_tpr ∈ thresholds /\
    norm_threshs !! 1%nat = Some (th_fpr / norm_factor) /\
    norm_threshs !! 2%nat = Some (th_tpr / norm_factor).
Proof.
  intros Hf Ht Hk Hlen Hlast Hle.
  destruct (by_tpr_last_reaches _ _ _ _ Hlen Hlast Hle) as [th_tpr E].
  pose proof (by_tpr_found _ _ _ _ E) as Htpr.
  pose proof (first_pair_elem _ _ _ _ E) as Hin_tpr.
  assert (thresholds <> []) as Hne by (intros ->; by apply elem_of_nil in Hin_tpr).
  destruct (by_fpr_index thresholds fpr max_fpr Hne)
    as (i & th_fpr & Hi & Hfpr & _).
  eexists _, _, th_fpr, th_tpr.
  rewrite (calc_thresholds_intro np_mean np_std p fpr tpr thresholds scores
             show_thresh _ _ _ _ _ Hf Ht Hk Hfpr Htpr). simpl.
  repeat split; auto.
  - eapply Qlt_le_trans; [apply np_finfo_float_eps_pos|apply np_max_pair_ge_r].
  - by eapply list_elem_of_lookup_2.
Qed.

Lemma calc_thresholds_succeeds_scenario :
  exists norm_threshs norm_factor th_fpr th_tpr,
    calc_thresholds (fun _ => 10) (fun _ => 2) scenario_params scenario_fpr
      scenario_tpr scenario_thresholds [8; 12] false
      = Ok (norm_threshs, norm_factor) /\
    0 < norm_factor /\ length norm_threshs = 3%nat /\
    th_fpr ∈ scenario_thresholds /\ th_tpr ∈ scenario_thresholds /\
    norm_threshs !! 1%nat = Some (th_fpr / norm_factor) /\
    norm_threshs !! 2%nat = Some (th_tpr / norm_factor).
Proof.
  apply (calc_thresholds_succeeds _ _ _ _ _ _ _ _ 0.3 0.6 2 1.0);
    try reflexivity.
  discriminate.
Defined.

(** A [min_tpr] above 1 on a curve whose TPRs end in 1 makes
    [calc_thresholds] raise [TypeError]: the [None] of the TPR policy
    does not get into the thresholds it returns. *)
Theorem calc_thresholds_min_tpr_above_one (np_mean np_std : list Q -> Q)
    (p : params) (fpr tpr thresholds scores : list Q) (show_thresh : bool)
    (max_fpr min_tpr sigma_k r_last : Q) :
  p !! "max_fpr" = Some max_fpr -> p !! "min_tpr" = Some min_tpr ->
  p !! "sigma_k" = Some sigma_k ->
  thresholds <> [] ->
  (forall i r, tpr !! i = Some r -> r <= 1) ->
  last tpr = Some r_last -> r_last == 1 ->
  1 < min_tpr ->
  calc_thresholds np_mean np_std p fpr tpr thresholds scores show_thresh
    = Raise TypeError.
Proof.
  intros Hf Ht Hk Hne Hall Hlast Hone Hgt. unfold calc_thresholds.
  rewrite Hf, Ht, Hk.
  destruct (by_fpr_index thresholds fpr max_fpr Hne) as (i & th & _ & -> & _).
  assert (first_pair (Qle_bool min_tpr) thresholds tpr = None) as E.
  { apply first_pair_None. intros j t r _ Hr. apply Qle_bool_false.
    apply Qle_lt_trans with 1; [by apply (Hall j)|done]. }
  rewrite (by_tpr_not_found _ _ _ E), Hlast.
  apply Qeq_bool_iff in Hone. by rewrite Hone.
Qed.

Lemma calc_thresholds_min_tpr_above_one_scenario :
  calc_thresholds (fun _ => 10) (fun _ => 2)
    (<["min_tpr" := 1.5]> scenario_params) scenario_fpr scenario_tpr
    scenario_thresholds [8; 12] false
  = Raise TypeError.
Proof.
  apply (calc_thresholds_min_tpr_above_one _ _ _ _ _ _ _ _ 0.3 1.5 2 1.0);
    try reflexivity; try discriminate.
  intros i r Hr. destruct i as [|[|[|i]]]; try discriminate;
    injection Hr as <-; discriminate.
Defined.

(** Dividing by the calibrated norm factor keeps the side of a
    threshold: with [distance_norm_factor] set to what [calc_thresholds]
    returned, [normalize_score] succeeds, a score at most a raw threshold
    is normalized to at most the normalized threshold, and a normalized
    score below the normalized threshold comes from a score below the
    raw one. *)
Theorem normalize_score_keeps_side (np_mean np_std : list Q -> Q)
    (p p' : params) (fpr tpr thresholds cal_scores : list Q)
    (show_thresh : bool) (norm_threshs : list Q) (norm_factor : Q)
    (scores : list Q) :
  calc_thresholds np_mean np_std p fpr tpr thresholds cal_scores show_thresh
    = Ok (norm_threshs, norm_factor) ->
  p' !! "distance_norm_factor" = Some norm_factor ->
  exists normalized,
    normalize_score p' scores = Ok normalized /\
    length normalized = length scores /\
    forall i s t, scores !! i = Some s ->
      exists n, normalized !! i = Some n /\
        (s <= t -> n <= t / norm_factor) /\
        (n < t / norm_factor -> s < t).
Proof.
  intros Hcal Hset.
  assert (0 < norm_factor) as Hpos.
  { apply calc_thresholds_inv in Hcal
      as (_ & _ & _ & _ & _ & _ & _ & _ & _ & _ & -> & _).
    eapply Qlt_le_trans; [apply np_finfo_float_eps_pos|apply np_max_pair_ge_r]. }
  assert (0 < / norm_factor) as Hinv by (by apply Qinv_lt_0_compat).
  unfold normalize_score. rewrite Hset. eexists. split; [done|].
  split; [by rewrite length_fmap|].
  intros i s t Hs. exists (s / norm_factor).
  rewrite list_lookup_fmap, Hs. split; [done|]. unfold Qdiv. split.
  - intros Hle. by apply Qmult_le_compat_r; [|apply Qlt_le_weak].
  - intros Hlt. by apply Qmult_lt_r in Hlt.
Qed.

Lemma normalize_score_keeps_side_scenario :
  exists normalized,
    normalize_score {["distance_norm_factor" := 10]} [14; 5] = Ok normalized /\
    length normalized = 2%nat /\
    forall i s t, [14; 5] !! i = Some s ->
      exists n, normalized !! i = Some n /\
        (s <= t -> n <= t / 10) /\ (n < t / 10 -> s < t).
Proof.
  apply (normalize_score_keeps_side (fun _ => 10) (fun _ => 2) scenario_params
           _ scenario_fpr scenario_tpr scenario_thresholds [8; 12] true
           [1.4; 0.05; 0.05] 10); reflexivity.
Defined.

(** ** Evaluation, continued *)

(** What [predict], [roc_curve] or [auc] raises, [evaluate_test] raises,
    whatever the parameters hold; so it raises [NotImplementedError] on
    a detector that does not override [predict]. *)
Theorem evaluate_test_propagates {Samples Labels Raw : Type}
    (np_mean np_std : list Q -> Q)
    (predict : Samples -> option Labels -> result (list Q * Raw))
    (roc_curve : list bool -> list Q -> result (list Q * list Q * list Q))
    (auc : list Q -> list Q -> result Q)
    (roc_auc_score : list bool -> list Q -> Q -> result Q)
    (p : params) (test_samples : Samples) (test_y_trues : list bool)
    (test_labels : option Labels) (show_thresh : bool) :
  (forall e, predict test_samples test_labels = Raise e ->
     evaluate_test np_mean np_std predict roc_curve auc roc_auc_score
       p test_samples test_y_trues test_labels show_thresh = Raise e) /\
  (forall scores raw e, predict test_samples test_labels = Ok (scores, raw) ->
     roc_curve test_y_trues scores = Raise e ->
     evaluate_test np_mean np_std predict roc_curve auc roc_auc_score
       p test_samples test_y_trues test_labels show_thresh = Raise e) /\
  (forall scores raw fpr tpr thresholds e,
     predict test_samples test_labels = Ok (scores, raw) ->
     roc_curve test_y_trues scores = Ok (fpr, tpr, thresholds) ->
     auc fpr tpr = Raise e ->
     evaluate_test np_mean np_std predict roc_curve auc roc_auc_score
       p test_samples test_y_trues test_labels show_thresh = Raise e) /\
  evaluate_test np_mean np_std (Lifecycle.predict (Raw := Raw)) roc_curve auc
    roc_auc_score p test_samples test_y_trues test_labels show_thresh
    = Raise NotImplementedError.
Proof.
  unfold evaluate_test. repeat split.
  - by intros e ->.
  - intros scores raw e -> Hc. simpl. by rewrite Hc.
  - intros scores raw fpr tpr thresholds e -> Hc Ha. simpl. rewrite Hc. simpl.
    by rewrite Ha.
Qed.

Lemma evaluate_test_propagates_two_samples :
  evaluate_test (fun _ => 0.5) (fun _ => 0.4) two_sample_predict
    (fun _ _ => Raise ValueError) two_sample_auc two_sample_roc_auc_score
    params_without_max_fpr tt [false; false] None false
  = Raise ValueError.
Proof.
  by apply (proj1 (proj2 (evaluate_test_propagates
                  (fun _ => 0.5) (fun _ => 0.4) two_sample_predict
                  (fun _ _ => Raise ValueError) two_sample_auc
                  two_sample_roc_auc_score params_without_max_fpr tt
                  [false; false] None false)) [0.1; 0.9] [0.1; 0.9]).
Defined.

(** What [evaluate_test] returns: the scores and raw scores are those of
    [predict], not normalized; the AUC is that of the curve of these
    scores; the thresholds and the norm factor are those
    [calc_thresholds] computes from this curve and these scores, and the
    norm factor is positive. *)
Theorem evaluate_test_returns {Samples Labels Raw : Type}
    (np_mean np_std : list Q -> Q)
    (predict : Samples -> option Labels -> result (list Q * Raw))
    (roc_curve : list bool -> list Q -> result (list Q * list Q * list Q))
    (auc : list Q -> list Q -> result Q)
    (roc_auc_score : list bool -> list Q -> Q -> result Q)
    (p : params) (test_samples : Samples) (test_y_trues : list bool)
    (test_labels : option Labels) (show_thresh : bool)
    (a : Q) (pauc : option Q) (norm_threshs : list Q) (norm_factor : Q)
    (scores : list Q) (raw : Raw) :
  evaluate_test np_mean np_std predict roc_curve auc roc_auc_score
    p test_samples test_y_trues test_labels show_thresh
    = Ok (a, pauc, norm_threshs, norm_factor, scores, raw) ->
  predict test_samples test_labels = Ok (scores, raw) /\
  exists fpr tpr thresholds,
    roc_curve test_y_trues scores = Ok (fpr, tpr, thresholds) /\
    auc fpr tpr = Ok a /\
    calc_thresholds np_mean np_std p fpr tpr thresholds scores show_thresh
      = Ok (norm_threshs, norm_factor) /\
    0 < norm_factor.
Proof.
  unfold evaluate_test.
  destruct (predict _ _) as [[scores' raw']|e]; [simpl|done].
  destruct (roc_curve _ _) as [[[fpr tpr] thresholds]|e] eqn:Ec; [simpl|done].
  destruct (auc _ _) as [a'|e] eqn:Ea; [simpl|done].
  destruct (match p !! "max_fpr" with Some _ => _ | None => _ end)
    as [pauc'|e]; [simpl|done].
  destruct (calc_thresholds _ _ _ _ _ _ _ _) as [[nt nf]|e] eqn:Ecal;
    [simpl|done].
  intros [= <- <- <- <- <- <-]. split; [done|].
  exists fpr, tpr, thresholds. repeat split; auto.
  apply calc_thresholds_inv in Ecal
    as (_ & _ & _ & _ & _ & _ & _ & _ & _ & _ & -> & _).
  eapply Qlt_le_trans; [apply np_finfo_float_eps_pos|apply np_max_pair_ge_r].
Qed.

Lemma evaluate_test_returns_two_samples :
  two_sample_predict tt None = Ok ([0.1; 0.9], [0.1; 0.9]) /\
  exists fpr tpr thresholds,
    two_sample_roc_curve [false; true] [0.1; 0.9] = Ok (fpr, tpr, thresholds) /\
    two_sample_auc fpr tpr = Ok 1 /\
    calc_thresholds (fun _ => 0.5) (fun _ => 0.4) scenario_params
      fpr tpr thresholds [0.1; 0.9] false
      = Ok ([(0.5 + 2 * 0.4) / 0.5; 0.9 / 0.5; 0.9 / 0.5], 0.5) /\
    0 < 0.5.
Proof.
  apply (evaluate_test_returns (fun _ => 0.5) (fun _ => 0.4)
           two_sample_predict two_sample_roc_curve two_sample_auc
           two_sample_roc_auc_score scenario_params tt [false; true] None
           false 1 (Some 1)).
  reflexivity.
Defined.

(** ** The experiment counter *)

Section PrepareExperiment.

Context {Target : Type}.

Let auto (self : Lifecycle.experiment Target) (target : option Target) :=
  Lifecycle.prepare_experiment self None target.



End PrepareExperiment.

(** ** Flooding *)

Lemma torch_flooding_above (loss b : Q) :
  b <= loss -> TrainLoss.torch_flooding loss b == loss.
Proof.
  intros H. unfold TrainLoss.torch_flooding.
  rewrite Qabs_pos by lra. lra.
Qed.

Lemma torch_flooding_below (loss b : Q) :
  loss <= b -> TrainLoss.torch_flooding loss b == 2 * b - loss.
Proof.
  intros H. unfold TrainLoss.torch_flooding.
  rewrite Qabs_neg by lra. lra.
Qed.

Lemma torch_flooding_ge (loss b : Q) : b <= TrainLoss.torch_flooding loss b.
Proof.
  unfold TrainLoss.torch_flooding. pose proof (Qabs_nonneg (loss - b)). lra.
Qed.

(** [torch_flooding] never gives less than [b]: it leaves a loss of [b]
    or more as it is and mirrors a smaller one to [2b - loss]; flooding
    twice is flooding once. *)
Theorem torch_flooding_floor (loss b : Q) :
  b <= TrainLoss.torch_flooding loss b /\
  (b <= loss -> TrainLoss.torch_flooding loss b == loss) /\
  (loss <= b -> TrainLoss.torch_flooding loss b == 2 * b - loss) /\
  TrainLoss.torch_flooding (TrainLoss.torch_flooding loss b) b
    == TrainLoss.torch_flooding loss b.
Proof.
  repeat split;
    auto using torch_flooding_ge, torch_flooding_above, torch_flooding_below.
Qed.

(** The scenario of the specification: a loss of 0.05 under [b = 0.1] is
    mirrored to 0.15. *)
Lemma torch_flooding_scenario :
  TrainLoss.torch_flooding 0.05 0.1 == 2 * 0.1 - 0.05 /\
  TrainLoss.torch_flooding 0.05 0.1 == 0.15.
Proof.
  split; [|reflexivity].
  apply (proj1 (proj2 (proj2 (torch_flooding_floor 0.05 0.1)))). discriminate.
Defined.

(** The loss of a step is flooded only in the train phase and only for a
    positive [flooding_b], and is then at least [flooding_b]; a val loss
    is never changed. *)
Theorem flooded_only_in_train (flooding_b loss : Q) :
  TrainLoss.flooded flooding_b TrainLoss.val loss = loss /\
  (flooding_b <= 0 -> TrainLoss.flooded flooding_b TrainLoss.train loss = loss) /\
  (0 < flooding_b ->
   TrainLoss.flooded flooding_b TrainLoss.train loss
     = TrainLoss.torch_flooding loss flooding_b /\
   flooding_b <= TrainLoss.flooded flooding_b TrainLoss.train loss).
Proof.
  unfold TrainLoss.flooded. split; [|split].
  - by rewrite andb_false_r.
  - intros H. apply Qltb_false in H. by rewrite H.
  - intros H. apply Qltb_true in H. rewrite H. simpl. split; [done|].
    apply torch_flooding_ge.
Qed.

Lemma flooded_scenario :
  0.1 <= TrainLoss.flooded 0.1 TrainLoss.train 0.05.
Proof.
  apply (proj2 (proj2 (flooded_only_in_train 0.1 0.05))). reflexivity.
Defined.

(** ** The transformation datasets *)

Section PyGetitem.

Context {A : Type}.
Implicit Types (l : list A) (i : Z).

Lemma py_getitem_nonneg l i :
  (0 <= i < Z.of_nat (length l))%Z ->
  exists x, l !! Z.to_nat i = Some x /\ GeoTfm.py_getitem l i = GeoTfm.Got x.
Proof.
  intros Hi. unfold GeoTfm.py_getitem.
  destruct (Z.ltb_spec i 0); [lia|].
  destruct (Z.leb_spec 0 i); [|lia].
  destruct (Z.ltb_spec i (Z.of_nat (length l))); [|lia]. simpl.
  destruct (lookup_lt_is_Some_2 l (Z.to_nat i)) as [x Hx]; [lia|].
  exists x. by rewrite Hx.
Qed.

Lemma py_getitem_negative l i :
  (- Z.of_nat (length l) <= i < 0)%Z ->
  GeoTfm.py_getitem l i = GeoTfm.py_getitem l (i + Z.of_nat (length l)).
Proof.
  intros Hi. unfold GeoTfm.py_getitem.
  destruct (Z.ltb_spec i 0); [|lia].
  destruct (Z.ltb_spec (i + Z.of_nat (length l)) 0); [lia|]. done.
Qed.

Lemma py_getitem_out l i :
  GeoTfm.py_getitem l i = GeoTfm.RaiseIndexError <->
  (i < - Z.of_nat (length l) \/ Z.of_nat (length l) <= i)%Z.
Proof.
  split.
  - intros H.
    destruct (decide (i < - Z.of_nat (length l) \/ Z.of_nat (length l) <= i)%Z)
      as [|Hin]; [done|]. exfalso.
    destruct (decide (i < 0)%Z).
    + rewrite py_getitem_negative in H by lia.
      destruct (py_getitem_nonneg l (i + Z.of_nat (length l)))
        as (x & _ & Hx); [lia|congruence].
    + destruct (py_getitem_nonneg l i) as (x & _ & Hx); [lia|congruence].
  - intros Hi. unfold GeoTfm.py_getitem.
    destruct (Z.ltb_spec i 0).
    + destruct (Z.leb_spec 0 (i + Z.of_nat (length l))); [|done].
      destruct Hi; lia.
    + destruct (Z.leb_spec 0 i); [|lia].
      destruct (Z.ltb_spec i (Z.of_nat (length l))); [|done].
      destruct Hi; lia.
Qed.

End PyGetitem.

Section GeoTfmDataset.

Context {File : Type}.
Variables (geo_tfms : list GeoTfm.geo_tfm) (file_list : list File).

Let n := GeoTfm.n_tfm geo_tfms.
Let len := GeoTfm.__len__ geo_tfms file_list.
Let getitem := GeoTfm.__getitem__ geo_tfms file_list.

Lemma n_tfm_nonzero : geo_tfms <> [] -> (0 < n)%Z.
Proof. unfold n, GeoTfm.n_tfm. destruct geo_tfms; [done|simpl; lia]. Qed.

Lemma getitem_decode (index : Z) :
  (0 < n)%Z ->
  (0 <= index / n < Z.of_nat (length file_list))%Z ->
  exists f t,
    file_list !! Z.to_nat (index / n) = Some f /\
    geo_tfms !! Z.to_nat (index mod n) = Some t /\
    getitem index = GeoTfm.Got (f, t, (index mod n)%Z).
Proof.
  intros Hn Hdiv. unfold getitem, GeoTfm.__getitem__, GeoTfm.filename.
  fold n. destruct (Z.eqb_spec n 0); [lia|].
  destruct (py_getitem_nonneg file_list (index / n) Hdiv) as (f & Hf & ->).
  pose proof (Z.mod_pos_bound index n Hn) as Hmod.
  destruct (py_getitem_nonneg geo_tfms (index mod n) Hmod) as (t & Ht & ->).
  by exists f, t.
Qed.

(** Inside [0, len) an item is the file at [index // n_tfm] under the
    transformation at [index % n_tfm], and this label is one of
    [classes()]. *)
Theorem getitem_in_range (index : Z) :
  (0 <= index < len)%Z ->
  exists f t,
    file_list !! Z.to_nat (index / n) = Some f /\
    geo_tfms !! Z.to_nat (index mod n) = Some t /\
    getitem index = GeoTfm.Got (f, t, (index mod n)%Z) /\
    (index mod n)%Z ∈ GeoTfm.classes geo_tfms.
Proof.
  unfold len, GeoTfm.__len__. fold n. intros Hi.
  assert (0 < n)%Z as Hn by (unfold n, GeoTfm.n_tfm in *; nia).
  assert (0 <= index / n < Z.of_nat (length file_list))%Z as Hdiv.
  { split; [apply Z.div_pos; lia|apply Z.div_lt_upper_bound; lia]. }
  destruct (getitem_decode index Hn Hdiv) as (f & t & Hf & Ht & Hget).
  exists f, t. repeat split; auto.
  unfold GeoTfm.classes. fold n. apply elem_of_seqZ.
  pose proof (Z.mod_pos_bound index n Hn). lia.
Qed.

(** Every file under every transformation is an item of the dataset: the
    pair of the file at position [i] and the transformation of label [r]
    is the item at [i * n_tfm + r], inside [0, len), and at no other
    index with this file position and label. *)
Theorem getitem_of_pair (i r : nat) (f : File) (t : GeoTfm.geo_tfm) :
  file_list !! i = Some f -> geo_tfms !! r = Some t ->
  let index := (Z.of_nat i * n + Z.of_nat r)%Z in
  (0 <= index < len)%Z /\
  getitem index = GeoTfm.Got (f, t, Z.of_nat r) /\
  forall index', (index' / n)%Z = Z.of_nat i -> (index' mod n)%Z = Z.of_nat r ->
    index' = index.
Proof.
  intros Hf Ht index.
  pose proof (lookup_lt_Some _ _ _ Hf) as Hi.
  pose proof (lookup_lt_Some _ _ _ Ht) as Hr.
  assert (Z.of_nat r < n)%Z as Hrn by (unfold n, GeoTfm.n_tfm; lia).
  assert (0 < n)%Z as Hn by lia.
  assert ((index / n)%Z = Z.of_nat i) as Hdiv.
  { unfold index. rewrite Z.div_add_l by lia.
    rewrite Z.div_small by lia. lia. }
  assert ((index mod n)%Z = Z.of_nat r) as Hmod.
  { unfold index. rewrite Z.add_comm, Z.mod_add by lia.
    apply Z.mod_small. lia. }
  split; [|split].
  - unfold len, GeoTfm.__len__. fold n. unfold index. nia.
  - destruct (getitem_decode index Hn) as (f' & t' & Hf' & Ht' & ->); [lia|].
    rewrite Hdiv, Nat2Z.id in Hf'. rewrite Hmod, Nat2Z.id in Ht'.
    rewrite Hmod. congruence.
  - intros index' Hd Hm. pose proof (Z.div_mod index' n ltac:(lia)) as E.
    rewrite Hd, Hm in E. unfold index. lia.
Qed.

(** With some transformation in the class, an index raises [IndexError]
    exactly outside [-len, len), and a negative index inside this range
    gives the item [len] places further, as on a Python sequence. With
    no transformation every index raises [ZeroDivisionError]. *)
Theorem getitem_index_error (index : Z) :
  (geo_tfms <> [] ->
   (getitem index = GeoTfm.RaiseIndexError <->
    (index < - len \/ len <= index)%Z) /\
   getitem index <> GeoTfm.RaiseZeroDivisionError /\
   ((- len <= index < 0)%Z -> getitem index = getitem (index + len))) /\
  (geo_tfms = [] -> getitem index = GeoTfm.RaiseZeroDivisionError).
Proof.
  split.
  - intros Hn%n_tfm_nonzero.
    pose proof (Z.mod_pos_bound index n Hn) as Hmod.
    pose proof (Z.div_mod index n ltac:(lia)) as Hdm.
    destruct (py_getitem_nonneg geo_tfms (index mod n) Hmod) as (t & _ & Ht).
    assert (forall k, getitem k =
              match GeoTfm.py_getitem file_list (k / n) with
              | GeoTfm.Got f =>
                  match GeoTfm.py_getitem geo_tfms (k mod n) with
                  | GeoTfm.Got t => GeoTfm.Got (f, t, (k mod n)%Z)
                  | GeoTfm.RaiseIndexError => GeoTfm.RaiseIndexError
                  | GeoTfm.RaiseZeroDivisionError => GeoTfm.RaiseZeroDivisionError
                  end
              | GeoTfm.RaiseIndexError => GeoTfm.RaiseIndexError
              | GeoTfm.RaiseZeroDivisionError => GeoTfm.RaiseZeroDivisionError
              end) as Hunfold.
    { intros k. unfold getitem, GeoTfm.__getitem__, GeoTfm.filename. fold n.
      by destruct (Z.eqb_spec n 0); [lia|]. }
    assert (forall l' : list File, forall k,
              GeoTfm.py_getitem l' k <> GeoTfm.RaiseZeroDivisionError) as Hnz.
    { intros l' k. unfold GeoTfm.py_getitem.
      destruct (_ && _); [destruct (l' !! _)|]; done. }
    assert ((index < - len \/ len <= index)%Z <->
            (index / n < - Z.of_nat (length file_list) \/
             Z.of_nat (length file_list) <= index / n)%Z) as Hrange.
    { unfold len, GeoTfm.__len__. fold n. split; intros [?|?]; [left|right|left|right]; nia. }
    split; [|split].
    + rewrite Hrange, <- py_getitem_out, Hunfold, Ht.
      by destruct (GeoTfm.py_getitem file_list (index / n)).
    + rewrite Hunfold, Ht.
      destruct (GeoTfm.py_getitem file_list (index / n)) eqn:E;
        [done|done|by apply Hnz in E].
    + intros Hneg. rewrite !Hunfold.
      assert (((index + len) / n)%Z = (index / n + Z.of_nat (length file_list))%Z)
        as ->.
      { unfold len, GeoTfm.__len__. fold n. by rewrite Z.div_add by lia. }
      assert (((index + len) mod n)%Z = (index mod n)%Z) as ->.
      { unfold len, GeoTfm.__len__. fold n. by rewrite Z.mod_add by lia. }
      rewrite (py_getitem_negative file_list (index / n)); [done|].
      unfold len, GeoTfm.__len__ in Hneg. fold n in Hneg. nia.
  - intros Hnil. unfold getitem, GeoTfm.__getitem__, GeoTfm.filename.
    by rewrite Hnil.
Qed.

End GeoTfmDataset.

Example n_tfm_of_the_datasets :
  GeoTfm.n_tfm GeoTfm.GeoTfmDataset = 40%Z /\
  GeoTfm.n_tfm GeoTfm.GeoTfm4Dataset = 4%Z /\
  GeoTfm.n_tfm GeoTfm.GeoTfm20Dataset = 20%Z.
Proof. repeat split; reflexivity. Qed.

(** Two files under the four rotations: item 5 is the second file under
    the rotation of label 1. *)
Lemma getitem_in_range_rotations :
  exists f t,
    ["a.png"; "b.png"] !! Z.to_nat (5 / GeoTfm.n_tfm GeoTfm.GeoTfm4Dataset)
      = Some f /\
    GeoTfm.GeoTfm4Dataset !! Z.to_nat (5 mod GeoTfm.n_tfm GeoTfm.GeoTfm4Dataset)
      = Some t /\
    GeoTfm.__getitem__ GeoTfm.GeoTfm4Dataset ["a.png"; "b.png"] 5
      = GeoTfm.Got (f, t, (5 mod GeoTfm.n_tfm GeoTfm.GeoTfm4Dataset)%Z) /\
    (5 mod GeoTfm.n_tfm GeoTfm.GeoTfm4Dataset)%Z
      ∈ GeoTfm.classes GeoTfm.GeoTfm4Dataset.
Proof.
  apply (getitem_in_range GeoTfm.GeoTfm4Dataset ["a.png"; "b.png"] 5).
  split; [discriminate|reflexivity].
Defined.

Lemma getitem_of_pair_rotations :
  let index := (Z.of_nat 1 * GeoTfm.n_tfm GeoTfm.GeoTfm4Dataset + Z.of_nat 1)%Z in
  (0 <= index < GeoTfm.__len__ GeoTfm.GeoTfm4Dataset ["a.png"; "b.png"])%Z /\
  GeoTfm.__getitem__ GeoTfm.GeoTfm4Dataset ["a.png"; "b.png"] index
    = GeoTfm.Got ("b.png", (None, Some GeoTfm.ROTATE_90, None), Z.of_nat 1) /\
  forall index',
    (index' / GeoTfm.n_tfm GeoTfm.GeoTfm4Dataset)%Z = Z.of_nat 1 ->
    (index' mod GeoTfm.n_tfm GeoTfm.GeoTfm4Dataset)%Z = Z.of_nat 1 ->
    index' = index.
Proof.
  apply (getitem_of_pair GeoTfm.GeoTfm4Dataset ["a.png"; "b.png"] 1 1);
    reflexivity.
Defined.

Lemma getitem_index_error_rotations :
  GeoTfm.__getitem__ GeoTfm.GeoTfm4Dataset ["a.png"; "b.png"] (-1)
    = GeoTfm.__getitem__ GeoTfm.GeoTfm4Dataset ["a.png"; "b.png"] 7 /\
  GeoTfm.__getitem__ GeoTfm.GeoTfm4Dataset ["a.png"; "b.png"] 8
    = GeoTfm.RaiseIndexError.
Proof.
  split.
  - destruct (proj1 (getitem_index_error GeoTfm.GeoTfm4Dataset
                       ["a.png"; "b.png"] (-1)) ltac:(discriminate))
      as (_ & _ & Hwrap).
    apply Hwrap. split; [discriminate|reflexivity].
  - destruct (proj1 (getitem_index_error GeoTfm.GeoTfm4Dataset
                       ["a.png"; "b.png"] 8) ltac:(discriminate))
      as (Hout & _ & _).
    apply Hout. right. discriminate.
Defined.

(** ** The train and validation files *)

(** No file is both a train and a validation file, and every file is one
    or the other. When the files are distinct and the validation files
    are distinct files drawn from them, the two lists together are the
    files, each once. *)
Theorem train_val_split (files val_files : list string) :
  (forall f, f ∈ Scheme.train_files files val_files ->
     f ∈ files /\ f ∉ val_files) /\
  (forall f, f ∈ files ->
     f ∈ Scheme.train_files files val_files \/ f ∈ val_files) /\
  (NoDup files -> NoDup val_files -> val_files ⊆ files ->
   Scheme.train_files files val_files ++ val_files ≡ₚ files /\
   (length (Scheme.train_files files val_files) + length val_files
    = length files)%nat).
Proof.
  unfold Scheme.train_files. split; [|split].
  - intros f Hf. apply list_elem_of_filter in Hf. tauto.
  - intros f Hf. destruct (decide (f ∈ val_files)); [by right|left].
    by apply list_elem_of_filter.
  - intros Hnd Hndv Hsub.
    assert (filter (fun f => f ∉ val_files) files ++ val_files ≡ₚ files) as Hp.
    { apply NoDup_Permutation; [|done|].
      - apply NoDup_app. split; [by apply NoDup_filter|]. split; [|done].
        intros f Hf. apply list_elem_of_filter in Hf. tauto.
      - intros f. rewrite elem_of_app, list_elem_of_filter. split.
        + intros [[_ ?]|?]; [done|by apply Hsub].
        + intros Hf. destruct (decide (f ∈ val_files)); [by right|by left]. }
    split; [done|]. apply Permutation_length in Hp.
    by rewrite length_app in Hp.
Qed.

Lemma train_val_split_three_files :
  Scheme.train_files ["a"; "b"; "c"] ["b"] ++ ["b"] ≡ₚ ["a"; "b"; "c"] /\
  (length (Scheme.train_files ["a"; "b"; "c"] ["b"]) + length ["b"]
   = length ["a"; "b"; "c"])%nat.
Proof.
  apply (proj2 (proj2 (train_val_split ["a"; "b"; "c"] ["b"]))).
  - compute_done.
  - compute_done.
  - intros f ->%list_elem_of_singleton. compute_done.
Defined.

(** ** The saved checkpoint *)

Section LatestCheckpoint.

Context {Path V : Type}.
Variable getctime : Path -> Q.

(** [max_from] keeps the first of the greatest: everything before it is
    smaller, nothing after it is greater. *)
Lemma max_from_first_greatest (pre : list Path) (best : Path)
    (mid xs : list Path) :
  (forall x, x ∈ pre -> getctime x < getctime best) ->
  (forall x, x ∈ mid -> getctime x <= getctime best) ->
  exists pre' post',
    pre ++ best :: mid ++ xs = pre' ++ Scheme.max_from getctime best xs :: post' /\
    (forall x, x ∈ pre' -> getctime x < getctime (Scheme.max_from getctime best xs)) /\
    (forall x, x ∈ post' -> getctime x <= getctime (Scheme.max_from getctime best xs)).
Proof.
  revert pre best mid. induction xs as [|x xs IH]; intros pre best mid Hpre Hmid.
  - exists pre, mid. by rewrite app_nil_r.
  - simpl. destruct (Qltb (getctime best) (getctime x)) eqn:E.
    + apply Qltb_true in E.
      destruct (IH (pre ++ best :: mid) x []) as (pre' & post' & Heq & H1 & H2).
      * intros y [Hy|Hy]%elem_of_app.
        -- by apply Qlt_trans with (getctime best); [apply Hpre|].
        -- apply elem_of_cons in Hy as [->|Hy]; [done|].
           by apply Qle_lt_trans with (getctime best); [apply Hmid|].
      * intros y Hy. by apply elem_of_nil in Hy.
      * exists pre', post'. split; [|done]. rewrite <- Heq. simpl.
        by rewrite <- app_assoc.
    + apply Qltb_false in E.
      destruct (IH pre best (mid ++ [x])) as (pre' & post' & Heq & H1 & H2).
      * done.
      * intros y [Hy|Hy]%elem_of_app; [by apply Hmid|].
        by apply list_elem_of_singleton in Hy as ->.
      * exists pre', post'. split; [|done]. rewrite <- Heq.
        by rewrite <- app_assoc.
Qed.

Variable load_state : Path -> result (list (string * V)).

(** [load_saved_checkpoint] raises [ValueError] when no file matches.
    When it succeeds, the file it loads is the first of the matches with
    the greatest creation time, and the weights it hands to the model are
    the renamed state dict of this file. With some match it raises only
    what loading this file raises. *)
Theorem load_saved_checkpoint_latest (matches : list Path) :
  (matches = [] ->
   Scheme.load_saved_checkpoint matches getctime load_state = Raise ValueError) /\
  (forall path weights,
     Scheme.load_saved_checkpoint matches getctime load_state = Ok (path, weights) ->
     exists pre post state,
       matches = pre ++ path :: post /\
       (forall x, x ∈ pre -> getctime x < getctime path) /\
       (forall x, x ∈ post -> getctime x <= getctime path) /\
       load_state path = Ok state /\ weights = remove_model state) /\
  (matches <> [] ->
   exists path, path ∈ matches /\
     (forall state, load_state path = Ok state ->
        Scheme.load_saved_checkpoint matches getctime load_state
          = Ok (path, remove_model state)) /\
     (forall e, load_state path = Raise e ->
        Scheme.load_saved_checkpoint matches getctime load_state = Raise e)).
Proof.
  unfold Scheme.load_saved_checkpoint. destruct matches as [|x xs]; simpl.
  - split; [done|]. split; [done|]. by intros [].
  - destruct (max_from_first_greatest [] x [] xs) as (pre & post & Heq & H1 & H2).
    { intros y Hy. by apply elem_of_nil in Hy. }
    { intros y Hy. by apply elem_of_nil in Hy. }
    simpl in Heq. split; [done|]. split.
    + intros path weights.
      destruct (load_state _) as [state|e] eqn:El; [simpl|done].
      intros [= <- <-]. by exists pre, post, state.
    + intros _. exists (Scheme.max_from getctime x xs). split.
      * rewrite Heq. set_solver.
      * split; [by intros state ->|by intros e ->].
Qed.

End LatestCheckpoint.

(** Three checkpoints, the last two created at the same time: the second
    is loaded. *)
Lemma load_saved_checkpoint_three_files :
  let getctime := fun x : string => if String.eqb x "e0.ckpt" then 1 else 2 in
  exists pre post state,
    ["e0.ckpt"; "e1.ckpt"; "e2.ckpt"] = pre ++ "e1.ckpt" :: post /\
    (forall x, x ∈ pre -> getctime x < getctime "e1.ckpt") /\
    (forall x, x ∈ post -> getctime x <= getctime "e1.ckpt") /\
    Ok [("model.fc.weight", 1%nat)] = Ok state /\
    [("fc.weight", 1%nat)] = remove_model state.
Proof.
  intros getctime.
  apply (proj1 (proj2 (load_saved_checkpoint_latest getctime
           (fun _ => Ok [("model.fc.weight", 1%nat)])
           ["e0.ckpt"; "e1.ckpt"; "e2.ckpt"]))).
  reflexivity.
Defined.

(** ** Checkpoint keys, continued *)

Lemma str_replace_absent (old new s : string) :
  occurs_in old s = false -> str_replace_from old new 0 s = s.
Proof.
  induction s as [|c s IH]; [done|].
  intros H.
  change (occurs_in old (String c s))
    with (String.prefix old (String c s) || occurs_in old s) in H.
  apply orb_false_iff in H as [Hp Hs].
  change (str_replace_from old new 0 (String c s))
    with (if String.prefix old (String c s)
          then new +:+ str_replace_from old new (String.length old - 1) s
          else String c (str_replace_from old new 0 s)).
  rewrite Hp. by rewrite IH.
Qed.

Lemma str_replace_from_found (old new : string) c s :
  String.prefix old (String c s) = true ->
  str_replace_from old new 0 (String c s)
  = new +:+ str_replace_from old new (String.length old - 1) s.
Proof.
  intros H.
  change (str_replace_from old new 0 (String c s))
    with (if String.prefix old (String c s)
          then new +:+ str_replace_from old new (String.length old - 1) s
          else String c (str_replace_from old new 0 s)).
  by rewrite H.
Qed.

(** Where ["model."] occurs only as the leading prefix, the renaming
    strips exactly this prefix; a key that does not start with it is
    kept. *)
Theorem new_key_strips_leading_prefix (k rest : string) :
  (occurs_in "model." rest = false -> new_key ("model." +:+ rest) = rest) /\
  (String.prefix "model." k = false -> new_key k = k).
Proof.
  split.
  - intros H.
    assert (String.substring 0 (String.length "model.") ("model." +:+ rest)
            = "model.") as Hsub by (by destruct rest).
    assert (String.prefix "model." ("model." +:+ rest) = true) as Hpre
      by (by destruct rest).
    unfold new_key. rewrite Hsub, String.eqb_refl.
    transitivity (str_replace_from "model." "" 0 rest);
      [|by apply str_replace_absent].
    by apply (str_replace_from_found "model." "").
  - intros H. apply new_key_other. intros Hs.
    apply (String.prefix_correct "model." k) in Hs. congruence.
Qed.

Lemma new_key_strips_resnet_key :
  new_key ("model." +:+ "layer1.0.conv1.weight") = "layer1.0.conv1.weight".
Proof.
  apply (proj1 (new_key_strips_leading_prefix "" "layer1.0.conv1.weight")).
  reflexivity.
Defined.

Section RemoveModel.

Context {V : Type}.
Implicit Types (d : list (string * V)) (k : string) (v : V).

Lemma dict_get_app_fresh d1 d2 k v :
  k ∉ d1.*1 -> dict_get k (d1 ++ (k, v) :: d2) = Some v.
Proof.
  induction d1 as [|[k' v'] d1 IH]; simpl; intros Hk.
  - by rewrite String.eqb_refl.
  - apply not_elem_of_cons in Hk as [Hne Hk].
    destruct (String.eqb_spec k k') as [->|_]; [done|]. by apply IH.
Qed.

Lemma dict_set_fresh d k v :
  k ∉ d.*1 -> dict_set k v d = d ++ [(k, v)].
Proof.
  induction d as [|[k' v'] d IH]; simpl; intros Hk; [done|].
  apply not_elem_of_cons in Hk as [Hne Hk].
  destruct (String.eqb_spec k k') as [->|_]; [done|]. by rewrite IH.
Qed.

Let rename (kv : string * V) : string * V := (new_key kv.1, kv.2).

Lemma remove_model_from d1 d2 :
  NoDup ((d1 ++ d2).*1) -> NoDup (new_key <$> (d1 ++ d2).*1) ->
  fold_left
    (fun replaced k =>
       match dict_get k (d1 ++ d2) with
       | Some v => dict_set (new_key k) v replaced
       | None => replaced
       end)
    (d2.*1) (rename <$> d1)
  = rename <$> (d1 ++ d2).
Proof.
  revert d1. induction d2 as [|[k v] d2 IH]; intros d1 Hnd Hndn; simpl.
  - by rewrite app_nil_r.
  - rewrite dict_get_app_fresh.
    2:{ rewrite fmap_app in Hnd. apply NoDup_app in Hnd as (_ & Hdisj & _).
        intros Hin. apply (Hdisj k Hin). simpl. apply elem_of_cons. by left. }
    rewrite dict_set_fresh.
    2:{ rewrite !fmap_app in Hndn. apply NoDup_app in Hndn as (_ & Hdisj & _).
        intros Hin. apply (Hdisj (new_key k)).
        - rewrite <- list_fmap_compose in Hin.
          apply list_elem_of_fmap in Hin as ([k' v'] & Hk & Hin'). simpl in Hk.
          apply list_elem_of_fmap. exists k'. split; [done|].
          apply list_elem_of_fmap. by exists (k', v').
        - simpl. apply elem_of_cons. by left. }
    replace (d1 ++ (k, v) :: d2) with ((d1 ++ [(k, v)]) ++ d2) in *
      by (by rewrite <- app_assoc).
    specialize (IH (d1 ++ [(k, v)]) Hnd Hndn).
    by rewrite fmap_app in IH.
Qed.

(** When the keys are distinct after the renaming too, [remove_model]
    renames every key in place: the order and the values are those of
    the state dict. *)
Theorem remove_model_renames_in_place d :
  NoDup (d.*1) -> NoDup (new_key <$> d.*1) ->
  remove_model d = (fun kv => (new_key kv.1, kv.2)) <$> d.
Proof.
  intros Hnd Hndn. exact (remove_model_from [] d Hnd Hndn).
Qed.

End RemoveModel.

Lemma remove_model_renames_resnet :
  remove_model [("model.conv1.weight", 1%nat); ("model.fc.bias", 2%nat)]
  = [("conv1.weight", 1%nat); ("fc.bias", 2%nat)].
Proof.
  apply (remove_model_renames_in_place
           [("model.conv1.weight", 1%nat); ("model.fc.bias", 2%nat)]);
    compute_done.
Defined.

(** A collision after the renaming: the later value takes the place of
    the earlier key. *)
Example remove_model_collision :
  remove_model [("model.w", 1%nat); ("b", 2%nat); ("w", 3%nat)]
  = [("w", 3%nat); ("b", 2%nat)].
Proof. reflexivity. Qed.



Section RemoveModelValues.

Context {V : Type}.
Implicit Types (d : list (string * V)) (k : string) (v : V).




End RemoveModelValues.



(** ** The training loop, continued *)

Section TrainRun.

Context {W Trainer : Type}.
Variable train_phase : nat -> Trainer -> W * W -> Trainer * (W * W).
Variable val_phase : nat -> Trainer -> W * W -> Q * Q.
Variable det : detector.

(** The bookkeeping of the best does not touch the training itself. *)
Lemma epochs_follow_training (epochs : list nat) (st : loop_state) :
  let st' := fold_left (epoch_body train_phase val_phase det) epochs st in
  (trainer st', live st') = training train_phase det epochs (trainer st) (live st).
Proof.
  revert st. induction epochs as [|e epochs IH]; intros st; simpl; [done|].
  specialize (IH (epoch_body train_phase val_phase det st e)). simpl in IH.
  rewrite IH. unfold epoch_body.
  destruct (run_train_phase _ _ _ _ _) as [tr h].
  destruct (run_val_phase _ _ _ _ _) as [l a].
  by destruct (Qltb l (best_loss st)).
Qed.

(** The restoring at the end of [train_model] changes no parameter: the
    best weights returned are the state dicts of the last weights, and
    every block holds after [train_model] what the last epoch left in
    it. *)
Theorem train_model_restores_nothing (num_epochs : nat) (tr0 : Trainer)
    (h0 : heap W) :
  let run := train_model train_phase val_phase det num_epochs tr0 h0 in
  best_weights run.1 = last_weights run.1 /\
  forall l, run.2 l = (training train_phase det (seq 0 num_epochs) tr0 h0).2 l.
Proof.
  simpl.
  set (st0 := {| trainer := tr0; live := h0; best_acc := 0; best_loss := 1e10;
                 best_model_wts := _get_model_wts det |}).
  rewrite (epochs_best_shares_storage train_phase val_phase det
             (seq 0 num_epochs) st0) by done.
  split; [done|]. intros l. rewrite set_model_wts_self.
  pose proof (epochs_follow_training (seq 0 num_epochs) st0) as H.
  simpl in H. by rewrite <- H.
Qed.

(** The best loss [train_model] returns is at most 1e10 and at most
    every val loss of the run; with no epoch it is 1e10, the best
    accuracy is 0 and the parameters are those given. *)
Theorem train_model_best_loss_bound (num_epochs : nat) (tr0 : Trainer)
    (h0 : heap W) :
  let run := train_model train_phase val_phase det num_epochs tr0 h0 in
  let hist := val_history train_phase val_phase det (seq 0 num_epochs) tr0 h0 in
  r_best_loss run.1 <= 1e10 /\
  (forall i l a, hist !! i = Some (l, a) -> r_best_loss run.1 <= l) /\
  (num_epochs = 0%nat ->
   r_best_loss run.1 = 1e10 /\ r_best_acc run.1 = 0 /\
   forall l, run.2 l = h0 l).
Proof.
  simpl.
  set (st0 := {| trainer := tr0; live := h0; best_acc := 0; best_loss := 1e10;
                 best_model_wts := _get_model_wts det |}).
  split; [|split].
  - destruct (epochs_select_earliest_least train_phase val_phase det
                (seq 0 num_epochs) st0)
      as [(-> & _)|(i & l & a & _ & -> & _ & _ & Hlt & _)].
    + apply Qle_refl.
    + by apply Qlt_le_weak.
  - intros j l' a' Hj.
    destruct (epochs_select_earliest_least train_phase val_phase det
                (seq 0 num_epochs) st0)
      as [(-> & _ & _ & Hall)|(i & l & a & _ & -> & _ & _ & _ & Hmin & _)].
    + by apply (Hall j l' a').
    + by apply (Hmin j l' a').
  - intros ->. simpl. repeat split; auto.
    intros l. apply set_model_wts_self.
Qed.

End TrainRun.

Lemma train_model_best_loss_bound_scenario :
  r_best_loss (counter_run [0.5; 0.3; 0.4]).1 <= 0.4.
Proof.
  apply (proj1 (proj2 (train_model_best_loss_bound counter_train_phase
           (losses_val_phase [0.5; 0.3; 0.4]) counter_det 3 tt
           (fun _ => 0%nat))) 2%nat 0.4 (inject_Z 2 / 10)).
  reflexivity.
Defined.

(** ** Prediction, continued *)

(** The scores of [DADGT.predict] are one per normality, in the same
    order; a normality in [0, 1] gives a score in [0, 1], and the more
    normal of two samples has the score that is no larger. *)
Theorem predict_reverses_normality {Samples Labels : Type}
    (simplified_normality : Samples -> result (list Q))
    (test_samples : Samples) (test_labels : option Labels)
    (ns scores : list Q) :
  simplified_normality test_samples = Ok ns ->
  Dadgt.predict simplified_normality test_samples test_labels false
    = Ok (Scores scores) ->
  length scores = length ns /\
  forall i j ni nj, ns !! i = Some ni -> ns !! j = Some nj ->
    exists si sj, scores !! i = Some si /\ scores !! j = Some sj /\
      (0 <= ni <= 1 -> 0 <= si <= 1) /\
      (ni <= nj -> sj <= si).
Proof.
  intros Hns. unfold Dadgt.predict. rewrite Hns. simpl. intros [= <-].
  split; [by rewrite length_fmap|].
  intros i j ni nj Hi Hj. exists (1 - ni), (1 - nj).
  rewrite !list_lookup_fmap, Hi, Hj. repeat split; try done; lra.
Qed.

Lemma predict_reverses_two_samples :
  length [1 - 0.25; 1 - 1] = length [0.25; 1] /\
  forall i j ni nj, [0.25; 1] !! i = Some ni -> [0.25; 1] !! j = Some nj ->
    exists si sj, [1 - 0.25; 1 - 1] !! i = Some si /\
      [1 - 0.25; 1 - 1] !! j = Some sj /\
      (0 <= ni <= 1 -> 0 <= si <= 1) /\
      (ni <= nj -> sj <= si).
Proof.
  apply (predict_reverses_normality (fun _ : unit => Ok [0.25; 1]) tt
           (None : option unit)); reflexivity.
Defined.
